(** * Native crash handler: a shallow embedding and its properties

    The development follows the two translation units of the crash reporter,
    [native_crash_handler.cpp] (the basic handler) and
    [enhanced_native_crash_handler.cpp] (the enhanced handler).  Both files
    define the same functions under the same names; the embedding keeps one
    definition per function and selects the differing constants, format
    strings and extra capture steps by the [tier] of the build.

    What the operating system and the C library answer during a run (process
    ids, the frames the unwinder visits, which addresses are readable, what
    [dladdr] resolves, whether [open] succeeds, what a chained handler does)
    is an explicit [environment]; what the process does to the outside
    (files, signal dispositions, calls, termination) is recorded in an
    explicit [process] state together with the handler's globals.

    Conventions of the model:
    - integers and addresses are [Z]; pointer arithmetic wraps at the pointer
      width of the target;
    - C strings are [string]s without their terminating NUL; [snprintf] cuts
      at the buffer size and returns the full length, as in C;
    - a load from an address the environment does not map raises a fault
      inside the handler; the run stops there with status [Faulted];
    - [write] always writes all its bytes; a chained handler that returns
      leaves the handler's globals and the files alone;
    - handler entries are sequential: an entry starts in the state the
      previous one left. *)

From Stdlib Require Import Ascii String.
From stdpp Require Import gmap strings list.

Local Open Scope string_scope.
Local Open Scope list_scope.
Local Open Scope Z_scope.

(** ** Build configuration *)

(** The two source files. *)
Inductive tier := Basic | Enhanced.

(** The [#ifdef] branches of the enhanced handler. *)
Inductive arch := aarch64 | arm | i386 | x86_64.

Definition ptr_bits (a : arch) : Z :=
  match a with
  | aarch64 | x86_64 => 64
  | arm | i386 => 32
  end.

(** Arithmetic on [uintptr_t] and on [unsigned char*] wraps at the pointer
    width of the target. *)
Definition wrap (a : arch) (z : Z) : Z := z mod 2 ^ ptr_bits a.

(** [#define MAX_STACK_FRAMES 64] and [#define MAX_STACK_FRAMES 128]. *)
Definition MAX_STACK_FRAMES (t : tier) : nat :=
  match t with
  | Basic => 64
  | Enhanced => 128
  end%nat.

(** [#define MEMORY_DUMP_SIZE 256]. *)
Definition MEMORY_DUMP_SIZE : nat := 256.

(** [char buffer[512]] and [char buffer[1024]] in [write_crash_to_file]. *)
Definition BUFFER_SIZE (t : tier) : nat :=
  match t with
  | Basic => 512
  | Enhanced => 1024
  end%nat.

(** ** Constants of <signal.h> (Linux and Android numbering) *)

Definition SIGILL : Z := 4.
Definition SIGTRAP : Z := 5.
Definition SIGABRT : Z := 6.
Definition SIGBUS : Z := 7.
Definition SIGFPE : Z := 8.
Definition SIGKILL : Z := 9.
Definition SIGSEGV : Z := 11.
Definition SIGSTOP : Z := 19.

(** The two sentinel values of a handler pointer. *)
Definition SIG_DFL : Z := 0.
Definition SIG_IGN : Z := 1.

Definition SA_SIGINFO : Z := 4.
Definition SA_ONSTACK : Z := 134217728.
Definition SA_RESTART : Z := 268435456.

(** The signals [initialize] registers the handler for, in source order. *)
Definition handled_signals : list Z :=
  [SIGSEGV; SIGABRT; SIGFPE; SIGILL; SIGBUS; SIGTRAP].

(** What the kernel does with a signal whose disposition is the default. *)
Inductive default_action := ActTerminate | ActIgnore | ActStop | ActContinue.

Definition default_action_of (sig : Z) : default_action :=
  if bool_decide (sig ∈ [17; 23; 28]) then ActIgnore
  else if bool_decide (sig = 18) then ActContinue
  else if bool_decide (sig ∈ [19; 20; 21; 22]) then ActStop
  else ActTerminate.

(** [signal] and [sigaction] accept the signals 1..64 other than [SIGKILL]
    and [SIGSTOP]. *)
Definition catchable (sig : Z) : bool :=
  bool_decide (1 ≤ sig ≤ 64) && negb (bool_decide (sig = SIGKILL))
  && negb (bool_decide (sig = SIGSTOP)).

(** ** [struct sigaction]

    The structure is declared by the platform's <signal.h>.  Its members
    [sa_handler] and [sa_sigaction] are the two members of one union there
    (POSIX allows their storage to overlap; bionic and glibc both declare a
    union), so whatever fills the structure gives both the same word.  The
    record keeps the two names the code reads; [sigaction_of] is the only
    constructor the kernel model uses and it writes the shared word to
    both. *)
Record sigaction_t := SigAction {
  sa_sigaction : Z;
  sa_handler : Z;
  sa_flags : Z;
  sa_mask : list Z
}.

Definition sigaction_of (fn flags : Z) (mask : list Z) : sigaction_t :=
  {| sa_sigaction := fn; sa_handler := fn; sa_flags := flags; sa_mask := mask |}.

(** [memset(&sa, 0, sizeof(sa))], also the content of the zero-initialised
    static table [g_old_handlers]. *)
Definition sigaction_zero : sigaction_t := sigaction_of 0 0 [].

#[global] Instance sigaction_inhabited : Inhabited sigaction_t :=
  populate sigaction_zero.

(** ** printf conversions *)

Definition nl : string := String (ascii_of_nat 10) EmptyString.
Definition NUL : ascii := ascii_of_nat 0.

Fixpoint repeat_char (c : ascii) (n : nat) : string :=
  match n with
  | O => EmptyString
  | S n' => String c (repeat_char c n')
  end.

Definition digit_char (d : Z) : ascii :=
  if d <? 10 then ascii_of_nat (Z.to_nat (48 + d))
  else ascii_of_nat (Z.to_nat (87 + d)).

(** The digits of [z] in base [b], least significant first, put in front of
    [acc]. *)
Fixpoint digits_go (b : Z) (fuel : nat) (z : Z) (acc : string) : string :=
  match fuel with
  | O => acc
  | S fuel' =>
      let acc' := String (digit_char (z mod b)) acc in
      if z / b =? 0 then acc' else digits_go b fuel' (z / b) acc'
  end.

Definition digits (b z : Z) : string :=
  digits_go b (S (Z.to_nat (Z.log2 z))) z "".

(** [%u], [%zu]. *)
Definition fmt_u (z : Z) : string := digits 10 z.
Definition fmt_zu (n : nat) : string := fmt_u (Z.of_nat n).

(** [%d], [%ld]. *)
Definition fmt_d (z : Z) : string :=
  if z <? 0 then "-" +:+ fmt_u (- z) else fmt_u z.

(** [%x], [%lx]: lower-case hexadecimal of a non-negative value. *)
Definition fmt_x (z : Z) : string := digits 16 z.

(** Field width with a fill character on the left ([%03zu], [%016lx]) and
    with blanks on the right ([%-2d]). *)
Definition pad_left (c : ascii) (w : nat) (s : string) : string :=
  repeat_char c (w - String.length s)%nat +:+ s.
Definition pad_right (w : nat) (s : string) : string :=
  s +:+ repeat_char " " (w - String.length s)%nat.

(** [%p] as bionic prints it: [0x] and the hexadecimal value. *)
Definition fmt_p (z : Z) : string := "0x" +:+ fmt_x z.

(** [snprintf(buffer, size, ...)]: at most [size - 1] characters of the
    formatted text reach the buffer; the return value is the length of the
    whole formatted text. *)
Definition snprintf (size : nat) (text : string) : string * nat :=
  (String.substring 0 (size - 1)%nat text, String.length text).

(** The [n] bytes of memory from offset [k] behind a buffer on, [after j]
    being the byte at offset [j]. *)
Fixpoint bytes_after (after : nat -> ascii) (k n : nat) : string :=
  match n with
  | O => ""
  | S n' => String (after k) (bytes_after after (S k) n')
  end.

(** [write(fd, buffer, len)] after [len = snprintf(buffer, size, ...)]: the
    [len] bytes starting at [buffer].  When the text fitted these are the
    formatted text; otherwise the [size - 1] characters of the cut text, its
    terminating NUL and the [len - size] bytes that follow the buffer in
    memory. *)
Definition written (size : nat) (after : nat -> ascii) (out : string * nat) : string :=
  let '(buf, len) := out in
  if (len <? size)%nat then buf
  else buf +:+ String NUL (bytes_after after 0 (len - size)).

(** [strncpy(dst, src, n)] into a zeroed buffer, read back as a C string. *)
Definition strncpy (n : nat) (src : string) : string := String.substring 0 n src.

(** ** Data model *)

(** The [registers] member of [EnhancedCrashInfo].  [pc], [sp] and [lr] exist
    on every target; [cpsr] and the register file [x[31]] / [r[16]] (here
    [gp]) on the two ARM targets; the named registers on the two x86 targets
    ([ax] stands for [eax] / [rax], and so on; [r8]..[r15] of x86_64 are never
    assigned and never printed). *)
Record registers_t := Registers {
  pc : Z; sp : Z; lr : Z; cpsr : Z;
  gp : list Z;
  ax : Z; bx : Z; cx : Z; dx : Z; si : Z; di : Z; bp : Z; xsp : Z; ip : Z
}.

(** [CrashInfo] / [EnhancedCrashInfo].  The basic structure has the members
    up to [frame_count]; in a basic build the remaining ones stay zero and are
    neither written nor printed. *)
Record CrashInfo := MkCrashInfo {
  signal : Z;
  code : Z;
  fault_address : Z;
  signal_name : string;
  thread_name : string;
  pid : Z;
  tid : Z;
  crash_time : Z;
  stack_frames : list Z;
  frame_count : nat;
  registers : registers_t;
  memory_before : list Z;
  memory_after : list Z;
  memory_readable : bool
}.

(** [struct UnwindState]. *)
Record UnwindState := MkUnwindState {
  frames : list Z;
  us_frame_count : nat;
  max_frames : nat
}.

Inductive _Unwind_Reason_Code := _URC_NO_REASON | _URC_END_OF_STACK.

(** [siginfo_t], the two members the handler reads. *)
Record siginfo_t := SigInfo { si_code : Z; si_addr : Z }.

(** [uc_mcontext] of the [ucontext_t] behind the handler's third argument,
    one layout per target. *)
Record mcontext_aarch64 := MContextA64 {
  mc_regs : list Z; mc_sp : Z; mc_pc : Z; mc_pstate : Z
}.

Record mcontext_arm := MContextArm {
  arm_r0 : Z; arm_r1 : Z; arm_r2 : Z; arm_r3 : Z; arm_r4 : Z; arm_r5 : Z;
  arm_r6 : Z; arm_r7 : Z; arm_r8 : Z; arm_r9 : Z; arm_r10 : Z;
  arm_fp : Z; arm_ip : Z; arm_sp : Z; arm_lr : Z; arm_pc : Z; arm_cpsr : Z
}.

Inductive ucontext_t :=
| UC_aarch64 (m : mcontext_aarch64)
| UC_arm (m : mcontext_arm)
| UC_x86 (gregs : list Z).

(** [Dl_info] as filled by a successful [dladdr]; a null [dli_fname] or
    [dli_sname] is [None]. *)
Record Dl_info := DlInfo {
  dli_fname : option string;
  dli_sname : option string;
  dli_saddr : Z
}.

(** How the process stands.  [Faulted a] is a fault raised at address [a]
    while the handler itself was running. *)
Inductive run_status :=
| Running
| Exited (exit_code : Z)
| Killed (by_signal : Z)
| Faulted (addr : Z).

(** What a call through a saved handler pointer does: come back, or end the
    process on its own. *)
Inductive call_outcome := Returns | Ends (s : run_status).

Inductive log_priority := ANDROID_LOG_DEBUG | ANDROID_LOG_INFO | ANDROID_LOG_ERROR.

(** The system and library calls a run performs, in program order. *)
Inductive event :=
| EvOpen (path : string) (ok : bool)
| EvWrite (data : string)
| EvClose
| EvLog (prio : log_priority) (tag msg : string)
| EvSigaction (sig : Z) (act : sigaction_t)
| EvCallSigaction (fn sig : Z)
| EvCallHandler (fn sig : Z)
| EvSignal (sig fn : Z)
| EvRaise (sig : Z)
| EvExit (exit_code : Z).

(** The answers of the operating system and the C library during one run of
    the handler. *)
Record environment := Environment {
  env_pid : Z;
  env_tid : Z;
  env_time : Z;
  (** [pthread_getname_np]: the name when it returns 0, [None] on failure. *)
  env_getname : option string;
  (** [_Unwind_GetIP] of the frames [_Unwind_Backtrace] reaches, innermost
      first; the list ends where the unwinder cannot continue. *)
  env_backtrace : list Z;
  (** [dladdr]: [None] when it returns 0. *)
  env_dladdr : Z -> option Dl_info;
  (** The byte at an address; [None] where the address is unmapped or not
      readable, so that a load from it raises a fault. *)
  env_memory : Z -> option Z;
  (** Whether [open(path, O_CREAT | O_WRONLY | O_TRUNC, 0644)] succeeds. *)
  env_open : string -> bool;
  (** The byte at each offset behind the format buffer on the stack. *)
  env_stale : nat -> ascii;
  (** The effect of calling the function at a saved handler pointer. *)
  env_call : Z -> call_outcome
}.

(** The process: the file-scope globals of the handler, the function-static
    recursion flag of [signal_handler], and the part of the outside world the
    handler acts on. *)
Record process := Process {
  g_crash_info : CrashInfo;
  g_crash_file_path : string;
  g_old_handlers : list sigaction_t;
  g_initialized : bool;
  handling_crash : bool;
  dispositions : gmap Z sigaction_t;
  files : gmap string string;
  status : run_status;
  trace : list event
}.

Definition registers_zero : registers_t :=
  Registers 0 0 0 0 [] 0 0 0 0 0 0 0 0 0.

(** [memset(&g_crash_info, 0, sizeof(g_crash_info))]. *)
Definition crash_info_zero (t : tier) (a : arch) : CrashInfo :=
  {| signal := 0; code := 0; fault_address := 0;
     signal_name := ""; thread_name := "";
     pid := 0; tid := 0; crash_time := 0;
     stack_frames := replicate (MAX_STACK_FRAMES t) 0;
     frame_count := 0;
     registers :=
       Registers 0 0 0 0
         (match a with
          | aarch64 => replicate 31 0
          | arm => replicate 16 0
          | _ => []
          end) 0 0 0 0 0 0 0 0 0;
     memory_before := replicate MEMORY_DUMP_SIZE 0;
     memory_after := replicate MEMORY_DUMP_SIZE 0;
     memory_readable := false |}.

(** A process before [initialize]: zeroed statics, no saved dispositions. *)
Definition process_start (t : tier) (a : arch)
    (disp : gmap Z sigaction_t) (fs : gmap string string) : process :=
  {| g_crash_info := crash_info_zero t a;
     g_crash_file_path := "";
     g_old_handlers := replicate 32 sigaction_zero;
     g_initialized := false;
     handling_crash := false;
     dispositions := disp;
     files := fs;
     status := Running;
     trace := [] |}.

(** *** Field updates *)

Definition set_registers (r : registers_t) (i : CrashInfo) : CrashInfo :=
  MkCrashInfo (signal i) (code i) (fault_address i) (signal_name i)
    (thread_name i) (pid i) (tid i) (crash_time i) (stack_frames i)
    (frame_count i) r (memory_before i) (memory_after i) (memory_readable i).

Definition set_memory_before (m : list Z) (i : CrashInfo) : CrashInfo :=
  MkCrashInfo (signal i) (code i) (fault_address i) (signal_name i)
    (thread_name i) (pid i) (tid i) (crash_time i) (stack_frames i)
    (frame_count i) (registers i) m (memory_after i) (memory_readable i).

Definition set_memory_after (m : list Z) (i : CrashInfo) : CrashInfo :=
  MkCrashInfo (signal i) (code i) (fault_address i) (signal_name i)
    (thread_name i) (pid i) (tid i) (crash_time i) (stack_frames i)
    (frame_count i) (registers i) (memory_before i) m (memory_readable i).

Definition set_memory_readable (b : bool) (i : CrashInfo) : CrashInfo :=
  MkCrashInfo (signal i) (code i) (fault_address i) (signal_name i)
    (thread_name i) (pid i) (tid i) (crash_time i) (stack_frames i)
    (frame_count i) (registers i) (memory_before i) (memory_after i) b.

Definition set_stack (fr : list Z) (n : nat) (i : CrashInfo) : CrashInfo :=
  MkCrashInfo (signal i) (code i) (fault_address i) (signal_name i)
    (thread_name i) (pid i) (tid i) (crash_time i) fr n
    (registers i) (memory_before i) (memory_after i) (memory_readable i).

Definition set_crash_info (i : CrashInfo) (p : process) : process :=
  Process i (g_crash_file_path p) (g_old_handlers p) (g_initialized p)
    (handling_crash p) (dispositions p) (files p) (status p) (trace p).

Definition set_crash_file_path (s : string) (p : process) : process :=
  Process (g_crash_info p) s (g_old_handlers p) (g_initialized p)
    (handling_crash p) (dispositions p) (files p) (status p) (trace p).

Definition set_old_handler (n : nat) (a : sigaction_t) (p : process) : process :=
  Process (g_crash_info p) (g_crash_file_path p) (<[n:=a]> (g_old_handlers p))
    (g_initialized p) (handling_crash p) (dispositions p) (files p) (status p)
    (trace p).

Definition set_initialized (b : bool) (p : process) : process :=
  Process (g_crash_info p) (g_crash_file_path p) (g_old_handlers p) b
    (handling_crash p) (dispositions p) (files p) (status p) (trace p).

Definition set_handling_crash (b : bool) (p : process) : process :=
  Process (g_crash_info p) (g_crash_file_path p) (g_old_handlers p)
    (g_initialized p) b (dispositions p) (files p) (status p) (trace p).

Definition set_disposition (sig : Z) (a : sigaction_t) (p : process) : process :=
  Process (g_crash_info p) (g_crash_file_path p) (g_old_handlers p)
    (g_initialized p) (handling_crash p) (<[sig:=a]> (dispositions p))
    (files p) (status p) (trace p).

Definition set_file (path content : string) (p : process) : process :=
  Process (g_crash_info p) (g_crash_file_path p) (g_old_handlers p)
    (g_initialized p) (handling_crash p) (dispositions p)
    (<[path:=content]> (files p)) (status p) (trace p).

Definition set_status (s : run_status) (p : process) : process :=
  Process (g_crash_info p) (g_crash_file_path p) (g_old_handlers p)
    (g_initialized p) (handling_crash p) (dispositions p) (files p) s (trace p).

(** Record the calls [evs] after those already made. *)
Definition emit (evs : list event) (p : process) : process :=
  Process (g_crash_info p) (g_crash_file_path p) (g_old_handlers p)
    (g_initialized p) (handling_crash p) (dispositions p) (files p) (status p)
    (trace p ++ evs).

(** ** System calls *)

(** The disposition the kernel holds for a signal; the default one where
    nothing was ever registered. *)
Definition disposition (p : process) (sig : Z) : sigaction_t :=
  default (sigaction_of SIG_DFL 0 []) (dispositions p !! sig).

(** [sigaction(sig, &act, &oldact)]: the previous disposition comes back
    through [oldact]; an uncatchable signal number is refused and nothing
    changes. *)
Definition sys_sigaction (sig : Z) (act : sigaction_t) (p : process)
    : option sigaction_t * process :=
  if catchable sig
  then (Some (disposition p sig),
        emit [EvSigaction sig act] (set_disposition sig act p))
  else (None, emit [EvSigaction sig act] p).

(** [signal(sig, fn)]. *)
Definition sys_signal (sig fn : Z) (p : process) : process :=
  if catchable sig
  then emit [EvSignal sig fn] (set_disposition sig (sigaction_of fn SA_RESTART []) p)
  else emit [EvSignal sig fn] p.

(** [raise(sig)].  With the default disposition the kernel applies the default
    action: a terminating signal ends the process with that signal (at the
    latest when the running handler returns and the signal is unblocked).  An
    ignored signal does nothing; a signal that has a handler of its own is
    handed to that handler, which lies outside this model. *)
Definition sys_raise (sig : Z) (p : process) : process :=
  let p := emit [EvRaise sig] p in
  if bool_decide (1 ≤ sig ≤ 64) then
    if sa_handler (disposition p sig) =? SIG_DFL then
      match default_action_of sig with
      | ActTerminate => set_status (Killed sig) p
      | _ => p
      end
    else p
  else p.

(** [_exit(code)]. *)
Definition sys_exit (c : Z) (p : process) : process :=
  set_status (Exited c) (emit [EvExit c] p).

(** A call through a saved handler pointer: the process with the call
    recorded, and whether the callee came back. *)
Definition call_saved (E : environment) (ev : event) (fn : Z) (p : process)
    : process * bool :=
  match env_call E fn with
  | Returns => (emit [ev] p, true)
  | Ends s => (set_status s (emit [ev] p), false)
  end.

(** ** The handler *)

Section Handler.

(** Which of the two files is compiled, for which target, against which
    [__ANDROID_API__], and the address of [signal_handler] itself. *)
Variable build : tier.
Variable target : arch.
Variable ANDROID_API : Z.
Variable signal_handler_ptr : Z.

Definition LOG_TAG : string :=
  match build with
  | Basic => "NativeCrashHandler"
  | Enhanced => "EnhancedNativeCrashHandler"
  end.

Definition get_signal_name (sig : Z) : string :=
  if sig =? SIGSEGV then "SIGSEGV"
  else if sig =? SIGABRT then "SIGABRT"
  else if sig =? SIGFPE then "SIGFPE"
  else if sig =? SIGILL then "SIGILL"
  else if sig =? SIGBUS then "SIGBUS"
  else if sig =? SIGTRAP then "SIGTRAP"
  else "UNKNOWN".

Definition get_signal_description (sig : Z) : string :=
  if sig =? SIGSEGV then "Segmentation fault (invalid memory access)"
  else if sig =? SIGABRT then "Abort signal (abnormal termination)"
  else if sig =? SIGFPE then "Floating point exception"
  else if sig =? SIGILL then "Illegal instruction"
  else if sig =? SIGBUS then "Bus error (invalid memory alignment)"
  else if sig =? SIGTRAP then "Trace/breakpoint trap"
  else "Unknown signal".

(** *** Stack unwinding *)

(** [unwind_callback]; [ip] is what [_Unwind_GetIP(context)] returns. *)
Definition unwind_callback (ip : Z) (state : UnwindState)
    : _Unwind_Reason_Code * UnwindState :=
  if (max_frames state <=? us_frame_count state)%nat
  then (_URC_END_OF_STACK, state)
  else
    let pc := ip in
    if pc =? 0 then (_URC_NO_REASON, state)
    else (_URC_NO_REASON,
          MkUnwindState (<[us_frame_count state := pc]> (frames state))
            (S (us_frame_count state)) (max_frames state)).

(** [_Unwind_Backtrace] of the unwind library: it calls the callback on each
    frame from the innermost outwards and stops at the end of the stack or
    when the callback answers anything but [_URC_NO_REASON].  The second
    component counts the callback invocations. *)
Fixpoint _Unwind_Backtrace {A : Type}
    (trace_fn : Z -> A -> _Unwind_Reason_Code * A) (stack : list Z) (arg : A)
    : A * nat :=
  match stack with
  | [] => (arg, O)
  | ip :: rest =>
      match trace_fn ip arg with
      | (_URC_NO_REASON, arg') =>
          let '(a, n) := _Unwind_Backtrace trace_fn rest arg' in (a, S n)
      | (_, arg') => (arg', 1%nat)
      end
  end.

(** The walk [capture_stack_trace] starts: the final unwind state and the
    number of frames the callback was invoked on. *)
Definition unwind_walk (stack : list Z) (buf : list Z) (max : nat)
    : UnwindState * nat :=
  _Unwind_Backtrace unwind_callback stack (MkUnwindState buf 0 max).

(** [capture_stack_trace(frames, max_frames)]: the frame array as the walk
    leaves it, and the returned [state.frame_count]. *)
Definition capture_stack_trace (E : environment) (buf : list Z) (max : nat)
    : list Z * nat :=
  let state := fst (unwind_walk (env_backtrace E) buf max) in
  (frames state, us_frame_count state).

(** *** Thread name *)

Definition get_thread_name (E : environment) (size : nat) : string :=
  if 26 <=? ANDROID_API then
    match env_getname E with
    | Some name => name
    | None => fst (snprintf size ("Thread-" +:+ fmt_d (env_tid E)))
    end
  else fst (snprintf size ("Thread-" +:+ fmt_d (env_tid E))).

(** *** Registers (enhanced handler) *)

(** Indices into [gregs] from <sys/ucontext.h>. *)
Definition REG_RIP : nat := 16.
Definition REG_RSP : nat := 15.
Definition REG_RBP : nat := 10.
Definition REG_RAX : nat := 13.
Definition REG_RBX : nat := 11.
Definition REG_RCX : nat := 14.
Definition REG_RDX : nat := 12.
Definition REG_RSI : nat := 9.
Definition REG_RDI : nat := 8.
Definition REG_EIP : nat := 14.
Definition REG_ESP : nat := 7.
Definition REG_EBP : nat := 6.
Definition REG_EAX : nat := 11.
Definition REG_EBX : nat := 8.
Definition REG_ECX : nat := 10.
Definition REG_EDX : nat := 9.
Definition REG_ESI : nat := 5.
Definition REG_EDI : nat := 4.

Definition capture_registers (info : CrashInfo) (context : option ucontext_t)
    : CrashInfo :=
  match context with
  | None => info
  | Some uc =>
      let r := registers info in
      match target, uc with
      | aarch64, UC_aarch64 m =>
          set_registers
            (Registers (mc_pc m) (mc_sp m) (mc_regs m !!! 30%nat) (mc_pstate m)
               ((λ i : nat, mc_regs m !!! i) <$> seq 0 31)
               (ax r) (bx r) (cx r) (dx r) (si r) (di r) (bp r) (xsp r) (ip r))
            info
      | arm, UC_arm m =>
          set_registers
            (Registers (arm_pc m) (arm_sp m) (arm_lr m) (arm_cpsr m)
               [arm_r0 m; arm_r1 m; arm_r2 m; arm_r3 m; arm_r4 m; arm_r5 m;
                arm_r6 m; arm_r7 m; arm_r8 m; arm_r9 m; arm_r10 m; arm_fp m;
                arm_ip m; arm_sp m; arm_lr m; arm_pc m]
               (ax r) (bx r) (cx r) (dx r) (si r) (di r) (bp r) (xsp r) (ip r))
            info
      | x86_64, UC_x86 g =>
          set_registers
            (Registers (pc r) (sp r) (lr r) (cpsr r) (gp r)
               (g !!! REG_RAX) (g !!! REG_RBX) (g !!! REG_RCX) (g !!! REG_RDX)
               (g !!! REG_RSI) (g !!! REG_RDI) (g !!! REG_RBP) (g !!! REG_RSP)
               (g !!! REG_RIP))
            info
      | i386, UC_x86 g =>
          set_registers
            (Registers (pc r) (sp r) (lr r) (cpsr r) (gp r)
               (g !!! REG_EAX) (g !!! REG_EBX) (g !!! REG_ECX) (g !!! REG_EDX)
               (g !!! REG_ESI) (g !!! REG_EDI) (g !!! REG_EBP) (g !!! REG_ESP)
               (g !!! REG_EIP))
            info
      | _, _ => info
      end
  end.

(** *** Memory window (enhanced handler) *)

(** One of the two copy loops: for [i] from [i] on, [n] more times,
    [buf[i] = *(base + i)].  A load from an address that is not readable
    raises a fault there and the loop goes no further: the result is the
    buffer as far as it was filled and the faulting address. *)
Fixpoint copy_loop (E : environment) (base : Z) (i n : nat) (buf : list Z)
    : list Z * option Z :=
  match n with
  | O => (buf, None)
  | S n' =>
      let read_addr := wrap target (base + Z.of_nat i) in
      match env_memory E read_addr with
      | None => (buf, Some read_addr)
      | Some b => copy_loop E base (S i) n' (<[i:=b]> buf)
      end
  end.

(** [capture_memory_dump]: the structure as the function leaves it and, when
    one of its loads faulted, the address of that fault. *)
Definition capture_memory_dump (E : environment) (info : CrashInfo)
    : CrashInfo * option Z :=
  let info := set_memory_readable false info in
  if fault_address info =? 0 then (info, None)
  else
    let addr := fault_address info in
    match copy_loop E (addr - Z.of_nat MEMORY_DUMP_SIZE) 0 MEMORY_DUMP_SIZE
            (memory_before info) with
    | (mb, Some a) => (set_memory_before mb info, Some a)
    | (mb, None) =>
        let info := set_memory_before mb info in
        match copy_loop E addr 0 MEMORY_DUMP_SIZE (memory_after info) with
        | (ma, Some a) => (set_memory_after ma info, Some a)
        | (ma, None) =>
            (set_memory_readable true (set_memory_after ma info), None)
        end
    end.

(** *** Report file *)

(** [len = snprintf(buffer, sizeof(buffer), ...); write(fd, buffer, len)]:
    the bytes that reach the file. *)
Definition print (E : environment) (text : string) : string :=
  written (BUFFER_SIZE build) (env_stale E)
    (snprintf (BUFFER_SIZE build) text).

Definition header_text (info : CrashInfo) : string :=
  "NATIVE_CRASH" +:+ nl +:+
  "Signal: " +:+ signal_name info +:+ " (" +:+ fmt_d (signal info) +:+ ")" +:+ nl +:+
  "Description: " +:+ get_signal_description (signal info) +:+ nl +:+
  "Code: " +:+ fmt_d (code info) +:+ nl +:+
  "Fault Address: " +:+ fmt_p (fault_address info) +:+ nl +:+
  "Thread: " +:+ thread_name info +:+ nl +:+
  "PID: " +:+ fmt_d (pid info) +:+ nl +:+
  "TID: " +:+ fmt_d (tid info) +:+ nl +:+
  "Time: " +:+ fmt_d (crash_time info) +:+ nl +:+
  "Frame Count: " +:+ fmt_zu (frame_count info) +:+ nl +:+
  match build with Basic => "" | Enhanced => nl end.

(** Width of [%016lx] / [%08lx]. *)
Definition reg_width : nat :=
  match target with aarch64 => 16 | _ => 8 end.

Definition fmt_reg (z : Z) : string := pad_left "0" reg_width (fmt_x z).

(** The name prefix of a general-purpose register line. *)
Definition reg_letter : string :=
  match target with aarch64 => "x" | _ => "r" end.

Definition register_line (info : CrashInfo) (i : nat) : string :=
  "  " +:+ reg_letter +:+ pad_right 2 (fmt_d (Z.of_nat i)) +:+ ":  " +:+
  fmt_reg (gp (registers info) !!! i) +:+ nl.

(** The writes between [REGISTERS:] and the blank line after them; none on
    the x86 targets. *)
Definition register_chunks (E : environment) (info : CrashInfo) : list string :=
  match target with
  | aarch64 | arm =>
      print E
        ("  pc:   " +:+ fmt_reg (pc (registers info)) +:+ nl +:+
         "  sp:   " +:+ fmt_reg (sp (registers info)) +:+ nl +:+
         "  lr:   " +:+ fmt_reg (lr (registers info)) +:+ nl +:+
         "  cpsr: " +:+ fmt_reg (cpsr (registers info)) +:+ nl)
      :: ((λ i, print E (register_line info i)) <$>
            seq 0 (match target with aarch64 => 31 | _ => 16 end))
  | _ => []
  end.

(** Width of the frame index: [%02zu] in the basic file, [%03zu] in the
    enhanced one. *)
Definition index_width : nat :=
  match build with Basic => 2 | Enhanced => 3 end.

(** The line of a frame [dladdr] resolved. *)
Definition resolved_line (i : nat) (frame : Z) (dl : Dl_info) : string :=
  "#" +:+ pad_left "0" index_width (fmt_zu i) +:+ " pc " +:+ fmt_p frame +:+
  " " +:+ default "???" (dli_fname dl) +:+
  " (" +:+ default "???" (dli_sname dl) +:+ "+" +:+
  fmt_p (wrap target (frame - dli_saddr dl)) +:+ ")" +:+ nl.

(** The line of a frame [dladdr] could not resolve. *)
Definition unresolved_line (i : nat) (frame : Z) : string :=
  "#" +:+ pad_left "0" index_width (fmt_zu i) +:+ " pc " +:+ fmt_p frame +:+
  " ???" +:+ nl.

(** The body of the stack-trace loop for index [i]. *)
Definition frame_line (E : environment) (info : CrashInfo) (i : nat) : string :=
  let frame := stack_frames info !!! i in
  match env_dladdr E frame with
  | Some dl => print E (resolved_line i frame dl)
  | None => print E (unresolved_line i frame)
  end.

(** One 16-byte row of a hex dump: the offset, the bytes, the line end, each
    a write of its own. *)
Definition dump_row (E : environment) (mem : list Z) (i : nat) : list string :=
  print E (pad_left "0" 4 (fmt_x (Z.of_nat i)) +:+ ": ")
  :: ((λ j : nat, print E (pad_left "0" 2 (fmt_x (mem !!! (i + j)%nat)) +:+ " "))
        <$> filter (λ j : nat, (i + j < MEMORY_DUMP_SIZE)%nat) (seq 0 16))
  ++ [nl].

Definition dump_rows (E : environment) (mem : list Z) : list string :=
  concat ((λ k : nat, dump_row E mem (16 * k)) <$> seq 0 (MEMORY_DUMP_SIZE / 16)).

Definition memory_chunks (E : environment) (info : CrashInfo) : list string :=
  if memory_readable info then
    [nl +:+ "MEMORY DUMP:" +:+ nl;
     print E ("Before fault address (" +:+ fmt_p (fault_address info) +:+
              " - 256):" +:+ nl)]
    ++ dump_rows E (memory_before info)
    ++ [print E (nl +:+ "After fault address (" +:+
                 fmt_p (fault_address info) +:+ "):" +:+ nl)]
    ++ dump_rows E (memory_after info)
  else [].

(** Every [write] of [write_crash_to_file], in order. *)
Definition report_chunks (E : environment) (info : CrashInfo) : list string :=
  match build with
  | Basic =>
      [print E (header_text info); "Stack Trace:" +:+ nl]
      ++ (frame_line E info <$> seq 0 (frame_count info))
  | Enhanced =>
      [print E (header_text info); "REGISTERS:" +:+ nl]
      ++ register_chunks E info
      ++ [nl; "STACK TRACE:" +:+ nl]
      ++ (frame_line E info <$> seq 0 (frame_count info))
      ++ memory_chunks E info
  end.

Definition report_text (E : environment) (info : CrashInfo) : string :=
  String.concat "" (report_chunks E info).

Definition written_message : string :=
  match build with
  | Basic => "Native crash info written to: "
  | Enhanced => "Enhanced native crash info written to: "
  end.

(** [write_crash_to_file].  [O_TRUNC] empties the file on [open]; each
    [write] then appends at the file offset, so the file ends up holding the
    writes one after the other. *)
Definition write_crash_to_file (E : environment) (info : CrashInfo)
    (p : process) : process :=
  let path := g_crash_file_path p in
  if env_open E path then
    let chunks := report_chunks E info in
    emit ([EvOpen path true] ++ (EvWrite <$> chunks) ++
          [EvClose; EvLog ANDROID_LOG_INFO LOG_TAG (written_message +:+ path)])
      (set_file path (String.concat "" chunks) p)
  else emit [EvOpen path false] p.

(** *** Signal handler *)

(** The "call original handler" step. *)
Definition chain_old_handler (E : environment) (sig : Z) (p : process)
    : process * bool :=
  let old_handler := g_old_handlers p !!! Z.to_nat sig in
  if negb (sa_sigaction old_handler =? 0) then
    call_saved E (EvCallSigaction (sa_sigaction old_handler) sig)
      (sa_sigaction old_handler) p
  else if negb (sa_handler old_handler =? 0)
          && negb (sa_handler old_handler =? SIG_DFL)
          && negb (sa_handler old_handler =? SIG_IGN) then
    call_saved E (EvCallHandler (sa_handler old_handler) sig)
      (sa_handler old_handler) p
  else (p, true).

(** The structure after the assignments that follow the [memset]. *)
Definition collect (E : environment) (sig : Z) (info : siginfo_t) : CrashInfo :=
  let z := crash_info_zero build target in
  MkCrashInfo sig (si_code info) (si_addr info)
    (strncpy 31 (get_signal_name sig)) (get_thread_name E 128)
    (env_pid E) (env_tid E) (env_time E)
    (stack_frames z) (frame_count z) (registers z)
    (memory_before z) (memory_after z) (memory_readable z).

(** [signal_handler(sig, info, context)].  Index [sig] of [g_old_handlers]
    is within the table for every signal the handler is registered for. *)
Definition signal_handler (E : environment) (sig : Z) (info : siginfo_t)
    (context : option ucontext_t) (p : process) : process :=
  if handling_crash p then sys_exit 1 p
  else
    let p := set_handling_crash true p in
    let ci := collect E sig info in
    let ci := match build with
              | Basic => ci
              | Enhanced => capture_registers ci context
              end in
    let '(ci, fault) := match build with
                        | Basic => (ci, None)
                        | Enhanced => capture_memory_dump E ci
                        end in
    match fault with
    | Some a => set_status (Faulted a) (set_crash_info ci p)
    | None =>
        let '(fr, n) :=
          capture_stack_trace E (stack_frames ci) (MAX_STACK_FRAMES build) in
        let p := set_crash_info (set_stack fr n ci) p in
        let p := write_crash_to_file E (g_crash_info p) p in
        let '(p, returned) := chain_old_handler E sig p in
        if returned then sys_raise sig (sys_signal sig SIG_DFL p) else p
    end.

(** *** Installation *)

Definition initializing_message : string :=
  match build with
  | Basic => "Initializing native crash handler, crash file: "
  | Enhanced => "Initializing enhanced native crash handler, crash file: "
  end.

Definition initialized_message : string :=
  match build with
  | Basic => "Native crash handler initialized successfully"
  | Enhanced => "Enhanced native crash handler initialized successfully"
  end.

(** [sigaction(sig, &sa, &g_old_handlers[sig])]. *)
Definition install_one (sig : Z) (sa : sigaction_t) (p : process) : process :=
  match sys_sigaction sig sa p with
  | (Some old, p') => set_old_handler (Z.to_nat sig) old p'
  | (None, p') => p'
  end.

(** [Java_com_crashreporter_library_NativeCrashHandler_initialize];
    [crash_dir] is the string [GetStringUTFChars] hands out. *)
Definition initialize (crash_dir : string) (p : process) : process :=
  if g_initialized p then
    emit [EvLog ANDROID_LOG_DEBUG LOG_TAG "Native crash handler already initialized"] p
  else
    let p := set_crash_file_path
               (fst (snprintf 256 (crash_dir +:+ "/native_crash.txt"))) p in
    let p := emit [EvLog ANDROID_LOG_INFO LOG_TAG
                     (initializing_message +:+ g_crash_file_path p)] p in
    let sa := sigaction_of signal_handler_ptr (Z.lor SA_SIGINFO SA_ONSTACK) [] in
    let p := install_one SIGSEGV sa p in
    let p := install_one SIGABRT sa p in
    let p := install_one SIGFPE sa p in
    let p := install_one SIGILL sa p in
    let p := install_one SIGBUS sa p in
    let p := install_one SIGTRAP sa p in
    let p := set_initialized true p in
    emit [EvLog ANDROID_LOG_INFO LOG_TAG initialized_message] p.

(** [Java_com_crashreporter_library_NativeCrashHandler_isInitialized]. *)
Definition isInitialized (p : process) : bool := g_initialized p.

(** *** Runs *)

(** One delivery of a handled signal: what the kernel passes to the handler
    and what the system answers while it runs. *)
Record fault := Fault {
  f_env : environment;
  f_sig : Z;
  f_info : siginfo_t;
  f_context : option ucontext_t
}.

Definition handle (p : process) (f : fault) : process :=
  signal_handler (f_env f) (f_sig f) (f_info f) (f_context f) p.

(** The handler entered once for each fault of a sequence, in order.  Entries
    are run whatever state the previous ones left, which covers a fault
    raised while an earlier one is still being handled. *)
Definition handle_all (fs : list fault) (p : process) : process :=
  foldl handle p fs.

(** The successful [open]s of the report file recorded in a trace: each one
    starts a report. *)
Definition is_report (ev : event) : bool :=
  match ev with
  | EvOpen _ true => true
  | _ => false
  end.

Definition reports (tr : list event) : nat := length (filter is_report tr).

Definition is_call (ev : event) : bool :=
  match ev with
  | EvCallSigaction _ _ | EvCallHandler _ _ => true
  | _ => false
  end.

(** ** Derived notions used by the statements *)

(** What [write_crash_to_file] adds to the trace. *)
Definition report_events (E : environment) (info : CrashInfo) (path : string)
    : list event :=
  if env_open E path then
    [EvOpen path true] ++ (EvWrite <$> report_chunks E info) ++
    [EvClose; EvLog ANDROID_LOG_INFO LOG_TAG (written_message +:+ path)]
  else [EvOpen path false].

(** What the chain step adds to the trace: at most the one call. *)
Definition chain_events (sig : Z) (p : process) : list event :=
  let old_handler := g_old_handlers p !!! Z.to_nat sig in
  if negb (sa_sigaction old_handler =? 0) then
    [EvCallSigaction (sa_sigaction old_handler) sig]
  else if negb (sa_handler old_handler =? 0)
          && negb (sa_handler old_handler =? SIG_DFL)
          && negb (sa_handler old_handler =? SIG_IGN) then
    [EvCallHandler (sa_handler old_handler) sig]
  else [].

(** The capture steps up to the memory window: the structure they leave and
    the address of the fault a load raised, if one did. *)
Definition captured (E : environment) (sig : Z) (info : siginfo_t)
    (context : option ucontext_t) : CrashInfo * option Z :=
  match build with
  | Basic => (collect E sig info, None)
  | Enhanced => capture_memory_dump E (capture_registers (collect E sig info) context)
  end.

(** The structure handed to [write_crash_to_file]. *)
Definition unwound (E : environment) (ci : CrashInfo) : CrashInfo :=
  set_stack
    (fst (capture_stack_trace E (stack_frames ci) (MAX_STACK_FRAMES build)))
    (snd (capture_stack_trace E (stack_frames ci) (MAX_STACK_FRAMES build)))
    ci.

(** The part of the handler behind the capture steps. *)
Definition report_and_chain (E : environment) (sig : Z) (ci : CrashInfo)
    (p : process) : process :=
  let p := set_crash_info (unwound E ci) p in
  let p := write_crash_to_file E (g_crash_info p) p in
  let '(p, returned) := chain_old_handler E sig p in
  if returned then sys_raise sig (sys_signal sig SIG_DFL p) else p.

(** The frames the callback keeps: those with a nonzero program counter. *)
Definition kept (stack : list Z) : list Z := filter (λ ip : Z, ip ≠ 0) stack.

(** The memory content of the [MEMORY_DUMP_SIZE] bytes from [base] on, when
    every one of them is readable. *)
Definition window_bytes (E : environment) (base : Z) : option (list Z) :=
  mapM (λ k : nat, env_memory E (wrap target (base + Z.of_nat k)))
    (seq 0 MEMORY_DUMP_SIZE).

(** ** Sample inputs *)

(** A run in which the thread-name lookup fails, the unwinder presents four
    frames of which one has a zero program counter and one resolves, memory
    is readable from 1024 up to 4096 only, the report file can be opened and
    a chained handler returns. *)
Definition sample_env : environment :=
  {| env_pid := 4021;
     env_tid := 4033;
     env_time := 1700000000;
     env_getname := None;
     env_backtrace := [4096; 0; 8192; 12288];
     env_dladdr := λ a,
       if a =? 4096
       then Some (DlInfo (Some "/system/lib64/libc.so") (Some "abort") 4000)
       else None;
     env_memory := λ a,
       if (1024 <=? a) && (a <? 4096) then Some (a mod 256) else None;
     env_open := λ _, true;
     env_stale := λ _, "?"%char;
     env_call := λ _, Returns |}.

(** The same run with a report file that cannot be created. *)
Definition sample_env_no_file : environment :=
  {| env_pid := env_pid sample_env;
     env_tid := env_tid sample_env;
     env_time := env_time sample_env;
     env_getname := env_getname sample_env;
     env_backtrace := env_backtrace sample_env;
     env_dladdr := env_dladdr sample_env;
     env_memory := env_memory sample_env;
     env_open := λ _, false;
     env_stale := env_stale sample_env;
     env_call := env_call sample_env |}.

(** A report directory of 250 bytes. *)
Definition long_directory : string := "/" +:+ repeat_char "d" 249.

(** The address the crash trigger of type 3 writes to. *)
Definition bad_ptr : Z := 3735928559.

(** ** Further notions used by the statements *)

(** The [close] calls recorded in a trace. *)
Definition is_close (ev : event) : bool :=
  match ev with
  | EvClose => true
  | _ => false
  end.

Definition closes (tr : list event) : nat := length (filter is_close tr).

(** The disposition [initialize] registers for each handled signal. *)
Definition installed_action (handler : Z) : sigaction_t :=
  sigaction_of handler (Z.lor SA_SIGINFO SA_ONSTACK) [].

(** The members of the crash structure that describe the signal event. *)
Definition event_fields (i : CrashInfo)
    : Z * Z * Z * string * string * Z * Z * Z :=
  (signal i, code i, fault_address i, signal_name i, thread_name i,
   pid i, tid i, crash_time i).

(** The value of a digit character and of a digit string in base [b], read
    most significant digit first. *)
Definition digit_value (c : ascii) : Z :=
  let n := Z.of_nat (nat_of_ascii c) in
  if n <? 58 then n - 48 else n - 87.

Fixpoint digits_value (b : Z) (s : string) : Z :=
  match s with
  | EmptyString => 0
  | String c s' =>
      digit_value c * b ^ Z.of_nat (String.length s') + digits_value b s'
  end.

(** ** Further sample inputs *)

(** The sample run on another thread. *)
Definition sample_env_other_thread : environment :=
  {| env_pid := env_pid sample_env;
     env_tid := 4034;
     env_time := env_time sample_env;
     env_getname := env_getname sample_env;
     env_backtrace := env_backtrace sample_env;
     env_dladdr := env_dladdr sample_env;
     env_memory := env_memory sample_env;
     env_open := env_open sample_env;
     env_stale := env_stale sample_env;
     env_call := env_call sample_env |}.

(** The sample run with every frame resolved to a module whose path is 600
    bytes long. *)
Definition sample_env_long_module : environment :=
  {| env_pid := env_pid sample_env;
     env_tid := env_tid sample_env;
     env_time := env_time sample_env;
     env_getname := env_getname sample_env;
     env_backtrace := env_backtrace sample_env;
     env_dladdr := λ _, Some (DlInfo (Some (repeat_char "m" 600)) None 0);
     env_memory := env_memory sample_env;
     env_open := env_open sample_env;
     env_stale := env_stale sample_env;
     env_call := env_call sample_env |}.

(** A process in which [SIGSEGV] already has a handler, at address 8192,
    registered with [SA_SIGINFO]. *)
Definition sample_process_with_handler (t : tier) : process :=
  process_start t aarch64 {[ SIGSEGV := sigaction_of 8192 SA_SIGINFO [] ]} ∅.

(** * Properties *)

(** ** Traces and projections through the state updates *)

Lemma reports_app (a b : list event) :
  reports (a ++ b) = (reports a + reports b)%nat.
Proof. unfold reports. by rewrite filter_app, length_app. Qed.

Lemma reports_writes (chunks : list string) :
  reports (EvWrite <$> chunks) = 0%nat.
Proof. induction chunks as [|c cs IH]; [done|]. exact IH. Qed.

Lemma calls_writes (chunks : list string) :
  filter is_call (EvWrite <$> chunks) = [].
Proof. induction chunks as [|c cs IH]; [done|]. exact IH. Qed.

Lemma reports_exits (n : nat) : reports (replicate n (EvExit 1)) = 0%nat.
Proof. induction n as [|n IH]; [done|]. exact IH. Qed.

Lemma write_crash_to_file_trace E info p :
  trace (write_crash_to_file E info p)
  = trace p ++ report_events E info (g_crash_file_path p).
Proof.
  unfold write_crash_to_file, report_events.
  by destruct (env_open E (g_crash_file_path p)).
Qed.

Lemma report_events_reports E info path :
  (reports (report_events E info path) ≤ 1)%nat.
Proof.
  unfold report_events. destruct (env_open E path); [|by cbv; lia].
  rewrite !reports_app, reports_writes. cbv. lia.
Qed.

Lemma write_crash_to_file_globals E info p :
  let p' := write_crash_to_file E info p in
  g_crash_info p' = g_crash_info p ∧
  g_crash_file_path p' = g_crash_file_path p ∧
  g_old_handlers p' = g_old_handlers p ∧
  g_initialized p' = g_initialized p ∧
  handling_crash p' = handling_crash p ∧
  dispositions p' = dispositions p ∧
  status p' = status p.
Proof.
  unfold write_crash_to_file.
  by destruct (env_open E (g_crash_file_path p)).
Qed.

Lemma call_saved_spec E ev fn p :
  let '(p', returned) := call_saved E ev fn p in
  trace p' = trace p ++ [ev] ∧
  files p' = files p ∧
  handling_crash p' = handling_crash p ∧
  dispositions p' = dispositions p ∧
  g_old_handlers p' = g_old_handlers p ∧
  g_crash_file_path p' = g_crash_file_path p ∧
  (returned = true → status p' = status p ∧ env_call E fn = Returns) ∧
  (returned = false → env_call E fn = Ends (status p')).
Proof.
  unfold call_saved. destruct (env_call E fn); simpl;
    repeat split; intros; congruence.
Qed.

Lemma chain_old_handler_spec E sig p :
  let '(p', returned) := chain_old_handler E sig p in
  trace p' = trace p ++ chain_events sig p ∧
  files p' = files p ∧
  handling_crash p' = handling_crash p ∧
  dispositions p' = dispositions p ∧
  g_old_handlers p' = g_old_handlers p ∧
  g_crash_file_path p' = g_crash_file_path p ∧
  (returned = true → status p' = status p).
Proof.
  unfold chain_old_handler, chain_events.
  set (old := g_old_handlers p !!! Z.to_nat sig).
  destruct (negb (sa_sigaction old =? 0)).
  - pose proof (call_saved_spec E (EvCallSigaction (sa_sigaction old) sig)
                  (sa_sigaction old) p) as H.
    destruct (call_saved _ _ _ _) as [p' r]. intuition.
  - destruct (negb (sa_handler old =? 0) && negb (sa_handler old =? SIG_DFL)
              && negb (sa_handler old =? SIG_IGN)).
    + pose proof (call_saved_spec E (EvCallHandler (sa_handler old) sig)
                    (sa_handler old) p) as H.
      destruct (call_saved _ _ _ _) as [p' r]. intuition.
    + rewrite app_nil_r. intuition.
Qed.

Lemma chain_events_reports sig p : reports (chain_events sig p) = 0%nat.
Proof.
  unfold chain_events.
  repeat match goal with |- context [if ?b then _ else _] => destruct b end;
    reflexivity.
Qed.

(** What re-raising adds: the reset to the default and the [raise]. *)
Lemma reraise_trace sig p :
  trace (sys_raise sig (sys_signal sig SIG_DFL p))
  = trace p ++ [EvSignal sig SIG_DFL; EvRaise sig].
Proof.
  unfold sys_raise, sys_signal.
  repeat match goal with |- context [if ?b then _ else _] => destruct b end;
    try destruct (default_action_of sig); simpl; by rewrite <- app_assoc.
Qed.

Lemma reraise_globals sig p :
  let p' := sys_raise sig (sys_signal sig SIG_DFL p) in
  files p' = files p ∧ handling_crash p' = handling_crash p ∧
  g_old_handlers p' = g_old_handlers p ∧
  g_crash_file_path p' = g_crash_file_path p ∧
  g_initialized p' = g_initialized p.
Proof.
  unfold sys_raise, sys_signal.
  repeat match goal with |- context [if ?b then _ else _] => destruct b end;
    try destruct (default_action_of sig); simpl; done.
Qed.

(** ** The handler, entry by entry *)

Lemma signal_handler_reentry E sig info context p :
  handling_crash p = true →
  signal_handler E sig info context p = sys_exit 1 p.
Proof. intros H. unfold signal_handler. by rewrite H. Qed.

Lemma signal_handler_first E sig info context p :
  handling_crash p = false →
  signal_handler E sig info context p
  = match captured E sig info context with
    | (ci, Some a) =>
        set_status (Faulted a) (set_crash_info ci (set_handling_crash true p))
    | (ci, None) => report_and_chain E sig ci (set_handling_crash true p)
    end.
Proof.
  intros H. unfold signal_handler, captured, report_and_chain, unwound.
  rewrite H.
  destruct build.
  - by destruct (capture_stack_trace _ _ _).
  - destruct (capture_memory_dump _ _) as [ci [a|]]; [done|].
    by destruct (capture_stack_trace _ _ _).
Qed.

Lemma report_and_chain_spec E sig ci p :
  let p' := report_and_chain E sig ci p in
  (∃ tail,
     trace p' = trace p ++ report_events E (unwound E ci) (g_crash_file_path p)
                ++ chain_events sig p ++ tail ∧
     (tail = [] ∨ tail = [EvSignal sig SIG_DFL; EvRaise sig])) ∧
  handling_crash p' = handling_crash p ∧
  g_old_handlers p' = g_old_handlers p ∧
  g_crash_file_path p' = g_crash_file_path p.
Proof.
  unfold report_and_chain.
  set (p1 := set_crash_info (unwound E ci) p).
  set (p2 := write_crash_to_file E (g_crash_info p1) p1).
  pose proof (write_crash_to_file_trace E (g_crash_info p1) p1) as Ht.
  pose proof (write_crash_to_file_globals E (g_crash_info p1) p1)
    as (_ & Hpath & Hold & _ & Hflag & _ & _).
  fold p2 in Ht, Hpath, Hold, Hflag.
  pose proof (chain_old_handler_spec E sig p2) as Hc.
  assert (chain_events sig p2 = chain_events sig p) as Hce
    by (unfold chain_events; by rewrite Hold).
  destruct (chain_old_handler E sig p2) as [p3 [|]];
    destruct Hc as (Hc1 & _ & Hc3 & _ & Hc5 & Hc6 & _).
  - pose proof (reraise_trace sig p3) as Hr.
    pose proof (reraise_globals sig p3) as (_ & Hr2 & Hr3 & Hr4 & _).
    simpl. split; [|by rewrite Hr2, Hr3, Hr4, Hc3, Hc5, Hc6, Hflag, Hold, Hpath].
    exists [EvSignal sig SIG_DFL; EvRaise sig]. split; [|by right].
    rewrite Hr, Hc1, Ht, Hce. by rewrite <- !app_assoc.
  - simpl. split; [|by rewrite Hc3, Hc5, Hc6, Hflag, Hold, Hpath].
    exists []. split; [|by left].
    rewrite Hc1, Ht, Hce, app_nil_r. by rewrite <- !app_assoc.
Qed.

Lemma signal_handler_sets_flag E sig info context p :
  handling_crash (signal_handler E sig info context p) = true.
Proof.
  destruct (handling_crash p) eqn:H.
  - by rewrite signal_handler_reentry.
  - rewrite signal_handler_first by done.
    destruct (captured E sig info context) as [ci [a|]]; [done|].
    by pose proof (report_and_chain_spec E sig ci (set_handling_crash true p))
      as (_ & -> & _).
Qed.

Lemma signal_handler_reports E sig info context p :
  (reports (trace (signal_handler E sig info context p))
   ≤ reports (trace p) + 1)%nat.
Proof.
  destruct (handling_crash p) eqn:H.
  - rewrite signal_handler_reentry by done. simpl.
    rewrite reports_app. cbv [reports filter list_filter is_report length].
    simpl. lia.
  - rewrite signal_handler_first by done.
    destruct (captured E sig info context) as [ci [a|]]; [simpl; lia|].
    pose proof (report_and_chain_spec E sig ci (set_handling_crash true p))
      as ((tail & -> & Htail) & _).
    rewrite !reports_app, chain_events_reports.
    pose proof (report_events_reports E (unwound E ci)
                  (g_crash_file_path (set_handling_crash true p))).
    assert (reports tail = 0%nat) by (by destruct Htail as [-> | ->]).
    simpl in *. lia.
Qed.

(** Entries that find the flag set only exit. *)
Lemma handle_all_guarded (fs : list fault) (p : process) :
  handling_crash p = true →
  trace (handle_all fs p) = trace p ++ replicate (length fs) (EvExit 1) ∧
  files (handle_all fs p) = files p ∧
  dispositions (handle_all fs p) = dispositions p ∧
  handling_crash (handle_all fs p) = true.
Proof.
  unfold handle_all. revert p. induction fs as [|f fs IH]; intros p H; simpl.
  - by rewrite app_nil_r.
  - assert (handle p f = sys_exit 1 p) as ->
      by (unfold handle; by rewrite signal_handler_reentry).
    destruct (IH (sys_exit 1 p) H) as (-> & -> & -> & ->).
    simpl. by rewrite <- app_assoc.
Qed.

(** ** The unwind walk *)

Lemma kept_cons_zero rest : kept (0 :: rest) = kept rest.
Proof. unfold kept. by rewrite filter_cons_False by (intros H; by apply H). Qed.

Lemma kept_cons_nonzero ip rest : ip ≠ 0 → kept (ip :: rest) = ip :: kept rest.
Proof. intros H. unfold kept. by rewrite filter_cons_True. Qed.

Lemma kept_nonzero stack : Forall (λ ip : Z, ip ≠ 0) (kept stack).
Proof. unfold kept. apply Forall_forall. intros x Hx. by apply list_elem_of_filter in Hx as [? _]. Qed.

Lemma unwind_callback_full ip st :
  (max_frames st ≤ us_frame_count st)%nat →
  unwind_callback ip st = (_URC_END_OF_STACK, st).
Proof.
  intros H. unfold unwind_callback.
  by rewrite (proj2 (Nat.leb_le _ _) H).
Qed.

Lemma unwind_callback_zero st :
  (us_frame_count st < max_frames st)%nat →
  unwind_callback 0 st = (_URC_NO_REASON, st).
Proof.
  intros H. unfold unwind_callback.
  by rewrite (proj2 (Nat.leb_gt _ _) H).
Qed.

Lemma unwind_callback_push ip st :
  (us_frame_count st < max_frames st)%nat → ip ≠ 0 →
  unwind_callback ip st
  = (_URC_NO_REASON,
     MkUnwindState (<[us_frame_count st := ip]> (frames st))
       (S (us_frame_count st)) (max_frames st)).
Proof.
  intros H Hip. unfold unwind_callback.
  rewrite (proj2 (Nat.leb_gt _ _) H).
  by rewrite (proj2 (Z.eqb_neq _ _) Hip).
Qed.

(** The content of the frame array after the walk, from any intermediate
    state of it. *)
Lemma walk_frames (stack : list Z) (st : UnwindState) :
  (us_frame_count st ≤ max_frames st)%nat →
  (max_frames st ≤ length (frames st))%nat →
  let st' := fst (_Unwind_Backtrace unwind_callback stack st) in
  max_frames st' = max_frames st ∧
  length (frames st') = length (frames st) ∧
  us_frame_count st'
  = Nat.min (us_frame_count st + length (kept stack)) (max_frames st) ∧
  take (us_frame_count st') (frames st')
  = take (us_frame_count st) (frames st)
    ++ take (max_frames st - us_frame_count st) (kept stack).
Proof.
  revert st. induction stack as [|ip rest IH]; intros st Hc Hlen; simpl.
  - change (kept []) with (@nil Z). rewrite take_nil, app_nil_r. repeat split; try done. simpl. lia.
  - destruct (decide (max_frames st ≤ us_frame_count st)%nat) as [Hfull|Hroom].
    + rewrite unwind_callback_full by done. simpl.
      replace (max_frames st - us_frame_count st)%nat with 0%nat by lia.
      rewrite app_nil_r. repeat split; try done. lia.
    + destruct (decide (ip = 0)) as [->|Hip].
      * rewrite unwind_callback_zero by lia.
        specialize (IH st Hc Hlen).
        destruct (_Unwind_Backtrace unwind_callback rest st) as [st' n].
        by rewrite kept_cons_zero.
      * rewrite unwind_callback_push by (done || lia).
        set (st1 := MkUnwindState _ _ _).
        assert (us_frame_count st1 ≤ max_frames st1)%nat as Hc1
          by (simpl; lia).
        assert (max_frames st1 ≤ length (frames st1))%nat as Hlen1
          by (simpl; by rewrite length_insert).
        specialize (IH st1 Hc1 Hlen1).
        destruct (_Unwind_Backtrace unwind_callback rest st1) as [st' n].
        unfold st1 in IH. cbn [frames us_frame_count max_frames fst] in IH.
        destruct IH as (Hm & Hl & Hn & Ht).
        rewrite kept_cons_nonzero by done.
        cbn [frames us_frame_count max_frames fst length].
        rewrite length_insert in Hl.
        repeat split; [done|done|lia|].
        rewrite Ht.
        rewrite (take_S_r _ _ ip)
          by (apply list_lookup_insert_eq; lia).
        rewrite take_insert_ge by lia.
        replace (max_frames st - us_frame_count st)%nat
          with (S (max_frames st - S (us_frame_count st))) by lia.
        by rewrite <- app_assoc.
Qed.

Lemma kept_take_le j stack : (length (kept (take j stack)) ≤ length (kept stack))%nat.
Proof.
  unfold kept. rewrite <- (take_drop j stack) at 2. rewrite filter_app, length_app. lia.
Qed.

(** Where the walk stops, from any intermediate state of it: it visits no
    frame beyond the stack and at least one if there is one; while frames
    remain it stops only on a callback that finds the array full; and every
    callback before the last one was entered with room left. *)
Lemma walk_visited (stack : list Z) (st : UnwindState) :
  (us_frame_count st ≤ max_frames st)%nat →
  let v := snd (_Unwind_Backtrace unwind_callback stack st) in
  (v ≤ length stack)%nat ∧
  ((0 < length stack)%nat → (0 < v)%nat) ∧
  ((v < length stack)%nat →
   (us_frame_count st + length (kept (take (v - 1) stack)))%nat
   = max_frames st) ∧
  (∀ j : nat, (j + 1 < v)%nat →
     (us_frame_count st + length (kept (take j stack)) < max_frames st)%nat).
Proof.
  revert st. induction stack as [|ip rest IH]; intros st Hc;
    cbn [_Unwind_Backtrace].
  - cbn. repeat split; intros; lia.
  - destruct (decide (max_frames st ≤ us_frame_count st)%nat) as [Hfull|Hroom].
    + rewrite unwind_callback_full by done. cbn [snd length].
      repeat split; intros; cbn; lia.
    + destruct (decide (ip = 0)) as [->|Hip].
      * rewrite unwind_callback_zero by lia.
        specialize (IH st Hc).
        destruct (_Unwind_Backtrace unwind_callback rest st) as [st' n].
        cbn [snd length] in *. destruct IH as (Hv & Hpos & Hstop & Hroom').
        repeat split; [lia|lia| |].
        -- intros Hlt. destruct n as [|n]; [lia|].
           replace (S (S n) - 1)%nat with (S n) by lia.
           cbn [take]. rewrite kept_cons_zero.
           specialize (Hstop ltac:(lia)).
           by replace (S n - 1)%nat with n in Hstop by lia.
        -- intros [|j] Hj; [cbn; lia|].
           cbn [take]. rewrite kept_cons_zero. apply Hroom'. lia.
      * rewrite unwind_callback_push by (done || lia).
        set (st1 := MkUnwindState _ _ _).
        assert (us_frame_count st1 ≤ max_frames st1)%nat as Hc1
          by (cbn; lia).
        specialize (IH st1 Hc1).
        destruct (_Unwind_Backtrace unwind_callback rest st1) as [st' n].
        unfold st1 in IH.
        cbn [snd length frames us_frame_count max_frames] in *.
        destruct IH as (Hv & Hpos & Hstop & Hroom').
        repeat split; [lia|lia| |].
        -- intros Hlt. destruct n as [|n]; [lia|].
           replace (S (S n) - 1)%nat with (S n) by lia.
           cbn [take]. rewrite kept_cons_nonzero by done.
           specialize (Hstop ltac:(lia)).
           replace (S n - 1)%nat with n in Hstop by lia.
           cbn [length]. lia.
        -- intros [|j] Hj; [cbn; lia|].
           cbn [take]. rewrite kept_cons_nonzero by done.
           specialize (Hroom' j ltac:(lia)). cbn [length]. lia.
Qed.

(** The frame array and the count [capture_stack_trace] returns. *)
Lemma capture_stack_trace_spec (E : environment) (buf : list Z) (max : nat) :
  (max ≤ length buf)%nat →
  let fr := fst (capture_stack_trace E buf max) in
  let n := snd (capture_stack_trace E buf max) in
  length fr = length buf ∧
  n = Nat.min (length (kept (env_backtrace E))) max ∧
  take n fr = take max (kept (env_backtrace E)).
Proof.
  intros Hbuf fr n.
  pose proof (walk_frames (env_backtrace E) (MkUnwindState buf 0 max)
                ltac:(simpl; lia) ltac:(simpl; lia)) as (_ & Hl & Hn & Ht).
  cbn [us_frame_count frames max_frames] in *.
  rewrite Nat.sub_0_r in Ht. rewrite take_0 in Ht.
  by repeat split.
Qed.

(** ** Strings and conversions *)

Lemma length_append (s1 s2 : string) :
  String.length (s1 +:+ s2) = (String.length s1 + String.length s2)%nat.
Proof. induction s1 as [|c s1 IH]; simpl; [done|]. by rewrite IH. Qed.

Lemma substring_all (n : nat) (s : string) :
  (String.length s ≤ n)%nat → String.substring 0 n s = s.
Proof.
  revert n. induction s as [|c s IH]; intros [|n] H; simpl in *; try done; try lia.
  rewrite IH; [done|lia].
Qed.

Lemma length_substring_le (n : nat) (s : string) :
  (String.length (String.substring 0 n s) ≤ n)%nat.
Proof.
  revert n. induction s as [|c s IH]; intros [|n]; simpl; try lia.
  specialize (IH n). lia.
Qed.

Lemma length_substring_min (n : nat) (s : string) :
  String.length (String.substring 0 n s) = Nat.min n (String.length s).
Proof.
  revert n. induction s as [|c s IH]; intros [|n]; simpl; try lia.
  rewrite IH. lia.
Qed.

Lemma prefix_substring (n : nat) (s : string) :
  String.prefix (String.substring 0 n s) s = true.
Proof.
  revert n. induction s as [|c s IH]; intros [|n]; simpl; try done.
  destruct (Ascii.ascii_dec c c); [apply IH|done].
Qed.

Lemma length_repeat_char c n : String.length (repeat_char c n) = n.
Proof. induction n as [|n IH]; simpl; [done|]. by rewrite IH. Qed.

Lemma length_pad_left c w s :
  String.length (pad_left c w s) = Nat.max w (String.length s).
Proof. unfold pad_left. rewrite length_append, length_repeat_char. lia. Qed.

Lemma length_digits_go b fuel z acc :
  (String.length (digits_go b fuel z acc) ≤ fuel + String.length acc)%nat.
Proof.
  revert z acc. induction fuel as [|fuel IH]; intros z acc; simpl; [lia|].
  destruct (z / b =? 0); simpl; [lia|].
  etrans; [apply IH|]. simpl. lia.
Qed.

Lemma length_digits b z (k : nat) :
  0 ≤ z < 2 ^ Z.of_nat k → (0 < k)%nat →
  (String.length (digits b z) ≤ k)%nat.
Proof.
  intros Hz Hk. unfold digits.
  etrans; [apply length_digits_go|]. simpl.
  destruct (decide (z = 0)) as [->|Hnz]; [simpl; lia|].
  assert (Z.log2 z < Z.of_nat k) by (apply Z.log2_lt_pow2; lia).
  pose proof (Z.log2_nonneg z). lia.
Qed.

Lemma length_fmt_d z :
  - 2 ^ 31 ≤ z < 2 ^ 31 → (String.length (fmt_d z) ≤ 32)%nat.
Proof.
  intros Hz. unfold fmt_d, fmt_u.
  destruct (z <? 0) eqn:Hneg.
  - apply Z.ltb_lt in Hneg. rewrite length_append. simpl.
    destruct (decide (z = - 2 ^ 31)) as [->|Hne]; [vm_compute; lia|].
    pose proof (length_digits 10 (- z) 31 ltac:(lia) ltac:(lia)). lia.
  - apply Z.ltb_ge in Hneg.
    pose proof (length_digits 10 z 31 ltac:(lia) ltac:(lia)). lia.
Qed.

Lemma snprintf_fits size text :
  (String.length text < size)%nat → fst (snprintf size text) = text.
Proof. intros H. unfold snprintf. simpl. apply substring_all. lia. Qed.

Lemma written_fits size after text :
  (String.length text < size)%nat →
  written size after (snprintf size text) = text.
Proof.
  intros H. unfold written, snprintf.
  rewrite (proj2 (Nat.ltb_lt _ _) H). apply substring_all. lia.
Qed.

Lemma length_bytes_after after k n :
  String.length (bytes_after after k n) = n.
Proof. revert k. induction n as [|n IH]; intros k; simpl; [done|]. by rewrite IH. Qed.

(** [write] is handed the length [snprintf] returned: that many bytes reach
    the file, whether or not the text fitted the buffer. *)
Lemma length_written size after text :
  (0 < size)%nat →
  String.length (written size after (snprintf size text)) = String.length text.
Proof.
  intros Hsize. unfold written, snprintf.
  destruct (String.length text <? size)%nat eqn:Hfit.
  - apply Nat.ltb_lt in Hfit. rewrite substring_all; [done|lia].
  - apply Nat.ltb_ge in Hfit.
    rewrite length_append, length_substring_min. simpl.
    rewrite length_bytes_after. lia.
Qed.

(** ** The memory window *)

(** A copy loop over readable memory fills the buffer with the bytes found
    and raises nothing. *)
Lemma copy_loop_readable E base (content : nat → Z) (n i : nat) (buf : list Z) :
  length buf = (i + n)%nat →
  (∀ k : nat, (i ≤ k < i + n)%nat →
     env_memory E (wrap target (base + Z.of_nat k)) = Some (content k)) →
  copy_loop E base i n buf = (take i buf ++ (content <$> seq i n), None).
Proof.
  revert i buf. induction n as [|n IH]; intros i buf Hlen Hmem; simpl.
  - rewrite app_nil_r, firstn_all2 by lia. done.
  - rewrite (Hmem i) by lia.
    rewrite (IH (S i)); [|rewrite length_insert; lia|intros k Hk; apply Hmem; lia].
    rewrite (take_S_r _ _ (content i)) by (apply list_lookup_insert_eq; lia).
    rewrite take_insert_ge by lia. by rewrite <- app_assoc.
Qed.

(** A copy loop ends with a fault exactly at the first address of its range
    that is not readable. *)
Lemma copy_loop_fault E base (n i : nat) (buf : list Z) (a : Z) (buf' : list Z) :
  copy_loop E base i n buf = (buf', Some a) →
  env_memory E a = None ∧
  ∃ k : nat, (i ≤ k < i + n)%nat ∧ a = wrap target (base + Z.of_nat k).
Proof.
  revert i buf. induction n as [|n IH]; intros i buf; simpl; [done|].
  destruct (env_memory E (wrap target (base + Z.of_nat i))) as [b|] eqn:Hm.
  - intros H. apply IH in H as (Hnone & k & Hk & ->).
    split; [done|]. exists k. split; [lia|done].
  - intros [= <- <-]. split; [done|]. exists i. split; [lia|done].
Qed.

Lemma copy_loop_first_unreadable E base (n : nat) (buf : list Z) :
  env_memory E (wrap target base) = None →
  copy_loop E base 0 (S n) buf = (buf, Some (wrap target base)).
Proof.
  intros H. cbn [copy_loop]. change (Z.of_nat 0) with 0.
  by rewrite Z.add_0_r, H.
Qed.

Lemma window_bytes_content E base bs :
  window_bytes E base = Some bs →
  length bs = MEMORY_DUMP_SIZE ∧
  (∀ k : nat, (k < MEMORY_DUMP_SIZE)%nat →
     env_memory E (wrap target (base + Z.of_nat k)) = Some (bs !!! k)) ∧
  ((λ k : nat, bs !!! k) <$> seq 0 MEMORY_DUMP_SIZE) = bs.
Proof.
  unfold window_bytes. intros H. apply mapM_Some in H.
  pose proof (Forall2_length _ _ _ H) as Hlen. rewrite length_seq in Hlen.
  assert (∀ k : nat, (k < MEMORY_DUMP_SIZE)%nat →
            env_memory E (wrap target (base + Z.of_nat k)) = Some (bs !!! k))
    as Hk.
  { intros k Hlt.
    destruct (lookup_lt_is_Some_2 bs k ltac:(lia)) as [b Hb].
    rewrite (list_lookup_total_correct _ _ _ Hb).
    eapply (Forall2_lookup_lr _ _ _ k k) in H; [exact H| |exact Hb].
    by rewrite lookup_seq_lt. }
  split; [done|]. split; [done|].
  apply list_eq. intros k. rewrite list_lookup_fmap.
  destruct (decide (k < MEMORY_DUMP_SIZE)%nat) as [Hlt|Hge].
  - rewrite lookup_seq_lt by done. simpl.
    destruct (lookup_lt_is_Some_2 bs k ltac:(lia)) as [b Hb].
    by rewrite (list_lookup_total_correct _ _ _ Hb).
  - rewrite lookup_seq_ge by lia. simpl.
    symmetry. apply lookup_ge_None. lia.
Qed.

(** With both windows readable the capture copies the memory content and
    reports it readable. *)
Lemma capture_memory_dump_readable E info mb ma :
  fault_address info ≠ 0 →
  length (memory_before info) = MEMORY_DUMP_SIZE →
  length (memory_after info) = MEMORY_DUMP_SIZE →
  window_bytes E (fault_address info - Z.of_nat MEMORY_DUMP_SIZE) = Some mb →
  window_bytes E (fault_address info) = Some ma →
  capture_memory_dump E info
  = (set_memory_readable true
       (set_memory_after ma
          (set_memory_before mb (set_memory_readable false info))), None).
Proof.
  intros Hnz Hlb Hla Hb Ha. unfold capture_memory_dump.
  change (fault_address (set_memory_readable false info))
    with (fault_address info).
  change (memory_before (set_memory_readable false info))
    with (memory_before info).
  rewrite (proj2 (Z.eqb_neq _ _) Hnz).
  apply window_bytes_content in Hb as (_ & Hb & Hbs).
  apply window_bytes_content in Ha as (_ & Ha & Has).
  rewrite (copy_loop_readable E _ (λ k, mb !!! k) MEMORY_DUMP_SIZE 0)
    by (done || intros k Hk; apply Hb; lia).
  rewrite (copy_loop_readable E _ (λ k, ma !!! k) MEMORY_DUMP_SIZE 0)
    by (done || intros k Hk; apply Ha; lia).
  cbn [take app]. by rewrite Hbs, Has.
Qed.

(** With the first byte of the window unreadable the capture faults on its
    first load. *)
Lemma capture_memory_dump_unreadable E info :
  fault_address info ≠ 0 →
  env_memory E (wrap target (fault_address info - Z.of_nat MEMORY_DUMP_SIZE))
  = None →
  snd (capture_memory_dump E info)
  = Some (wrap target (fault_address info - Z.of_nat MEMORY_DUMP_SIZE)).
Proof.
  intros Hnz Hm. unfold capture_memory_dump.
  change (fault_address (set_memory_readable false info))
    with (fault_address info).
  rewrite (proj2 (Z.eqb_neq _ _) Hnz).
  change MEMORY_DUMP_SIZE with (S 255) at 2.
  by rewrite copy_loop_first_unreadable.
Qed.

(** The only way the capture ends without having read the windows is a null
    fault address; a fault it raises lies at an unreadable byte. *)
Lemma capture_memory_dump_fault E info a :
  snd (capture_memory_dump E info) = Some a → env_memory E a = None.
Proof.
  unfold capture_memory_dump.
  destruct (fault_address (set_memory_readable false info) =? 0); [done|].
  destruct (copy_loop E _ 0 MEMORY_DUMP_SIZE
              (memory_before (set_memory_readable false info)))
    as [mb [a1|]] eqn:H1.
  - intros [= <-]. by apply copy_loop_fault in H1 as [? _].
  - match goal with
    | |- context [copy_loop ?e ?b ?i ?n ?buf] =>
        destruct (copy_loop e b i n buf) as [ma [a2|]] eqn:H2
    end; [|cbn [snd]; congruence].
    intros [= <-]. by apply copy_loop_fault in H2 as [? _].
Qed.

Arguments copy_loop : simpl never.

(** ** What the capture steps leave in the structure *)

Lemma capture_registers_keeps info context :
  let ci := capture_registers info context in
  thread_name ci = thread_name info ∧
  stack_frames ci = stack_frames info ∧
  fault_address ci = fault_address info ∧
  memory_before ci = memory_before info ∧
  memory_after ci = memory_after info.
Proof.
  unfold capture_registers.
  destruct context as [[m|m|g]|]; destruct target; done.
Qed.

Lemma capture_memory_dump_keeps E info :
  let ci := fst (capture_memory_dump E info) in
  thread_name ci = thread_name info ∧
  stack_frames ci = stack_frames info ∧
  fault_address ci = fault_address info.
Proof.
  unfold capture_memory_dump.
  destruct (fault_address (set_memory_readable false info) =? 0); [done|].
  repeat match goal with
         | |- context [copy_loop ?e ?b ?i ?n ?buf] =>
             destruct (copy_loop e b i n buf) as [? [?|]]
         end; done.
Qed.

Lemma captured_keeps E sig info context :
  let ci := fst (captured E sig info context) in
  thread_name ci = get_thread_name E 128 ∧
  stack_frames ci = replicate (MAX_STACK_FRAMES build) 0 ∧
  fault_address ci = si_addr info.
Proof.
  unfold captured. destruct build eqn:Hb; rewrite <- ?Hb; [by repeat split|].
  pose proof (capture_memory_dump_keeps E
                (capture_registers (collect E sig info) context))
    as (-> & -> & ->).
  by pose proof (capture_registers_keeps (collect E sig info) context)
    as (-> & -> & -> & _).
Qed.

(** ** The part behind the capture steps *)

Lemma emit_nil p : emit [] p = p.
Proof. destruct p. unfold emit. simpl. by rewrite app_nil_r. Qed.

Lemma chain_old_handler_returns E sig p :
  (∀ fn, env_call E fn = Returns) →
  chain_old_handler E sig p = (emit (chain_events sig p) p, true).
Proof.
  intros Hret. unfold chain_old_handler, chain_events, call_saved.
  repeat match goal with |- context [if ?b then _ else _] => destruct b end;
    rewrite ?Hret, ?emit_nil; done.
Qed.

Lemma report_and_chain_returns E sig ci p :
  (∀ fn, env_call E fn = Returns) →
  report_and_chain E sig ci p
  = sys_raise sig
      (sys_signal sig SIG_DFL
         (emit (chain_events sig p)
            (write_crash_to_file E (unwound E ci)
               (set_crash_info (unwound E ci) p)))).
Proof.
  intros Hret. unfold report_and_chain.
  cbn [g_crash_info set_crash_info].
  rewrite chain_old_handler_returns by done.
  pose proof (write_crash_to_file_globals E (unwound E ci)
                (set_crash_info (unwound E ci) p)) as (_ & _ & Hold & _).
  unfold chain_events. by rewrite Hold.
Qed.

(** The globals and the file system behind the handler's report step,
    whatever a chained handler does. *)
Lemma report_and_chain_frame E sig ci p :
  let p' := report_and_chain E sig ci p in
  g_crash_info p' = unwound E ci ∧
  g_initialized p' = g_initialized p ∧
  files p'
  = if env_open E (g_crash_file_path p)
    then <[g_crash_file_path p := report_text E (unwound E ci)]> (files p)
    else files p.
Proof.
  unfold report_and_chain, write_crash_to_file, chain_old_handler, call_saved,
    sys_raise, sys_signal, report_text.
  cbn [g_crash_info g_crash_file_path set_crash_info].
  repeat match goal with
         | |- context [if ?b then _ else _] => destruct b
         | |- context [match env_call ?e ?f with _ => _ end] =>
             destruct (env_call e f)
         | |- context [match default_action_of ?s with _ => _ end] =>
             destruct (default_action_of s)
         end; done.
Qed.

(** A signal the handler is registered for can be reset, and its default
    action ends the process. *)
Lemma handled_signal_fatal sig :
  sig ∈ handled_signals →
  catchable sig = true ∧ bool_decide (1 ≤ sig ≤ 64) = true ∧
  default_action_of sig = ActTerminate.
Proof.
  unfold handled_signals. rewrite !elem_of_cons, elem_of_nil.
  intros [->|[->|[->|[->|[->|[->|[]]]]]]]; by vm_compute.
Qed.

Lemma disposition_set sig a evs evs' p :
  disposition (emit evs (emit evs' (set_disposition sig a p))) sig = a.
Proof.
  unfold disposition, emit, set_disposition. cbn [dispositions].
  by rewrite lookup_insert_eq.
Qed.

Lemma reraise_status sig p :
  sig ∈ handled_signals →
  let p' := sys_raise sig (sys_signal sig SIG_DFL p) in
  status p' = Killed sig ∧
  disposition p' sig = sigaction_of SIG_DFL SA_RESTART [].
Proof.
  intros (Hc & Hr & Hd)%handled_signal_fatal.
  unfold sys_raise, sys_signal. rewrite Hc, Hr, disposition_set, Hd.
  cbn [sa_handler sigaction_of]. change (SIG_DFL =? SIG_DFL) with true.
  cbn iota. split; [done|].
  unfold disposition, set_status, emit, set_disposition. cbn [dispositions].
  by rewrite lookup_insert_eq.
Qed.

Lemma initialize_sets_flag dir p : g_initialized (initialize dir p) = true.
Proof.
  unfold initialize. destruct (g_initialized p) eqn:H; [done|].
  unfold install_one, sys_sigaction.
  change (catchable SIGSEGV) with true. change (catchable SIGABRT) with true.
  change (catchable SIGFPE) with true. change (catchable SIGILL) with true.
  change (catchable SIGBUS) with true. change (catchable SIGTRAP) with true.
  done.
Qed.

Lemma raise_without_handler sig fs :
  sig ∈ handled_signals →
  status (sys_raise sig (process_start build target ∅ fs)) = Killed sig.
Proof.
  intros (_ & Hr & Hd)%handled_signal_fatal.
  unfold sys_raise. rewrite Hr.
  unfold disposition, emit, process_start. cbn [dispositions].
  rewrite lookup_empty. cbn [default sa_handler sigaction_of].
  change (SIG_DFL =? SIG_DFL) with true. cbn iota. by rewrite Hd.
Qed.

(** A first entry whose capture steps raise no fault and whose chained
    handler, if any, returns. *)
Lemma signal_handler_completes E sig info context p :
  handling_crash p = false →
  snd (captured E sig info context) = None →
  (∀ fn, env_call E fn = Returns) →
  signal_handler E sig info context p
  = let ci := unwound E (fst (captured E sig info context)) in
    let q := set_handling_crash true p in
    sys_raise sig
      (sys_signal sig SIG_DFL
         (emit (chain_events sig q)
            (write_crash_to_file E ci (set_crash_info ci q)))).
Proof.
  intros Hflag Hcap Hret. rewrite signal_handler_first by done.
  destruct (captured E sig info context) as [ci fault].
  simpl in Hcap. subst fault. by rewrite report_and_chain_returns.
Qed.

Lemma initialize_fresh dir p :
  g_initialized p = false →
  let p' := initialize dir p in
  g_crash_file_path p' = fst (snprintf 256 (dir +:+ "/native_crash.txt")) ∧
  files p' = files p ∧
  handling_crash p' = handling_crash p.
Proof.
  intros H. unfold initialize. rewrite H.
  unfold install_one, sys_sigaction.
  change (catchable SIGSEGV) with true. change (catchable SIGABRT) with true.
  change (catchable SIGFPE) with true. change (catchable SIGILL) with true.
  change (catchable SIGBUS) with true. change (catchable SIGTRAP) with true.
  done.
Qed.

(** The report step of a first entry whose [open] succeeds. *)
Lemma report_written E sig ci p :
  env_open E (g_crash_file_path p) = true →
  let p' := report_and_chain E sig ci p in
  g_crash_info p' = unwound E ci ∧
  files p'
  = <[g_crash_file_path p := report_text E (unwound E ci)]> (files p) ∧
  ∃ rest,
    trace p'
    = trace p ++ [EvOpen (g_crash_file_path p) true]
      ++ (EvWrite <$> report_chunks E (unwound E ci)) ++ [EvClose] ++ rest.
Proof.
  intros Hopen p'.
  pose proof (report_and_chain_frame E sig ci p) as (Hci & _ & Hf).
  pose proof (report_and_chain_spec E sig ci p) as ((tail & Ht & _) & _).
  rewrite Hopen in Hf. split; [done|]. split; [done|].
  fold p' in Ht. rewrite Ht. unfold report_events. rewrite Hopen.
  eexists. rewrite <- !app_assoc. simpl. reflexivity.
Qed.

(** The frame array a first entry hands to the report step. *)
Lemma unwound_frames E ci :
  stack_frames ci = replicate (MAX_STACK_FRAMES build) 0 →
  let u := unwound E ci in
  thread_name u = thread_name ci ∧
  (frame_count u ≤ MAX_STACK_FRAMES build)%nat ∧
  take (frame_count u) (stack_frames u)
  = take (MAX_STACK_FRAMES build) (kept (env_backtrace E)).
Proof.
  intros Hz u.
  pose proof (capture_stack_trace_spec E (stack_frames ci)
                (MAX_STACK_FRAMES build)) as H.
  rewrite Hz, length_replicate in H. specialize (H ltac:(lia)).
  rewrite <- Hz in H. cbv zeta in H. destruct H as (_ & Hn & Ht).
  split; [done|]. split; [|done].
  unfold u, unwound. cbn [frame_count set_stack]. lia.
Qed.

Lemma unwound_frame_on_stack E ci (i : nat) :
  stack_frames ci = replicate (MAX_STACK_FRAMES build) 0 →
  (i < frame_count (unwound E ci))%nat →
  stack_frames (unwound E ci) !!! i ∈ env_backtrace E ∧
  stack_frames (unwound E ci) !!! i ≠ 0.
Proof.
  intros Hz Hi.
  pose proof (unwound_frames E ci Hz) as (_ & Hn & Ht).
  assert (take (frame_count (unwound E ci)) (stack_frames (unwound E ci)) !! i
          = Some (stack_frames (unwound E ci) !!! i)) as Hl.
  { rewrite lookup_take_lt by done.
    apply list_lookup_lookup_total_lt.
    apply Nat.lt_le_trans with (1 := Hi).
    assert (length (take (frame_count (unwound E ci))
                      (stack_frames (unwound E ci)))
            = frame_count (unwound E ci)) as Hlen.
    { rewrite Ht, length_take.
      pose proof (capture_stack_trace_spec E (stack_frames ci)
                    (MAX_STACK_FRAMES build)) as H.
      rewrite Hz, length_replicate in H. specialize (H ltac:(lia)).
      rewrite <- Hz in H. cbv zeta in H. destruct H as (_ & H & _).
      unfold unwound. cbn [frame_count set_stack]. lia. }
    rewrite length_take in Hlen. lia. }
  rewrite Ht in Hl. apply list_elem_of_lookup_2 in Hl.
  apply (subseteq_take _ _ _) in Hl. unfold kept in Hl.
  apply list_elem_of_filter in Hl as [Hnz Hin]. done.
Qed.

Lemma ptr_bits_le : 2 ^ ptr_bits target ≤ 2 ^ 64.
Proof. destruct target; simpl; lia. Qed.

Lemma buffer_size_ge : (512 ≤ BUFFER_SIZE build)%nat.
Proof. destruct build; simpl; lia. Qed.

Lemma unresolved_line_fits (i : nat) (frame : Z) :
  (i < 1024)%nat → 0 ≤ frame < 2 ^ 64 →
  (String.length (unresolved_line i frame) < BUFFER_SIZE build)%nat.
Proof.
  intros Hi Hf. pose proof buffer_size_ge.
  unfold unresolved_line, fmt_p, fmt_zu, fmt_u, fmt_x.
  rewrite !length_append, length_pad_left.
  pose proof (length_digits 10 (Z.of_nat i) 10 ltac:(lia) ltac:(lia)).
  pose proof (length_digits 16 frame 64 ltac:(lia) ltac:(lia)).
  assert (index_width ≤ 3)%nat by (unfold index_width; destruct build; lia).
  change (String.length "#") with 1%nat.
  change (String.length " pc ") with 4%nat.
  change (String.length "0x") with 2%nat.
  change (String.length " ???") with 4%nat.
  change (String.length nl) with 1%nat.
  lia.
Qed.

Lemma get_thread_name_fallback E :
  ANDROID_API < 26 ∨ env_getname E = None →
  - 2 ^ 31 ≤ env_tid E < 2 ^ 31 →
  get_thread_name E 128 = "Thread-" +:+ fmt_d (env_tid E).
Proof.
  intros Hfail Htid.
  assert (fst (snprintf 128 ("Thread-" +:+ fmt_d (env_tid E)))
          = "Thread-" +:+ fmt_d (env_tid E)) as Hfit.
  { apply snprintf_fits. rewrite length_append.
    pose proof (length_fmt_d (env_tid E) Htid).
    change (String.length "Thread-") with 7%nat. lia. }
  unfold get_thread_name.
  destruct (26 <=? ANDROID_API) eqn:Hapi; [|done].
  apply Z.leb_le in Hapi. destruct Hfail as [?| ->]; [lia|done].
Qed.

Lemma frame_line_in_report E info (i : nat) :
  (i < frame_count info)%nat → frame_line E info i ∈ report_chunks E info.
Proof.
  intros Hi.
  assert (frame_line E info i ∈ frame_line E info <$> seq 0 (frame_count info))
    as Hin.
  { apply list_elem_of_fmap. exists i. split; [done|].
    apply elem_of_seq. lia. }
  unfold report_chunks. destruct build; rewrite !elem_of_app; tauto.
Qed.

Lemma header_in_report E info :
  print E (header_text info) ∈ report_chunks E info.
Proof.
  unfold report_chunks. destruct build; rewrite elem_of_app; left;
    apply elem_of_cons; by left.
Qed.

(** In a basic build the capture steps read no memory and raise nothing. *)
Lemma captured_basic E sig info context :
  build = Basic → snd (captured E sig info context) = None.
Proof. intros Hb. unfold captured. by rewrite Hb. Qed.

(** In an enhanced build, a first entry whose memory window starts at an
    unreadable byte ends inside [capture_memory_dump]: nothing is opened,
    written or called. *)
Lemma enhanced_fault_aborts E sig info context p :
  build = Enhanced →
  handling_crash p = false →
  si_addr info ≠ 0 →
  env_memory E (wrap target (si_addr info - Z.of_nat MEMORY_DUMP_SIZE)) = None →
  let p' := signal_handler E sig info context p in
  status p' = Faulted (wrap target (si_addr info - Z.of_nat MEMORY_DUMP_SIZE)) ∧
  memory_readable (g_crash_info p') = false ∧
  files p' = files p ∧
  trace p' = trace p.
Proof.
  intros Hb Hflag Hnz Hmem p'. subst p'.
  rewrite signal_handler_first by done.
  pose proof (capture_registers_keeps (collect E sig info) context)
    as (_ & _ & Haddr & _).
  change (fault_address (collect E sig info)) with (si_addr info) in Haddr.
  pose proof (capture_memory_dump_unreadable E
                (capture_registers (collect E sig info) context)) as Hf.
  rewrite Haddr in Hf. specialize (Hf Hnz Hmem).
  assert (memory_readable
            (fst (capture_memory_dump E
                    (capture_registers (collect E sig info) context)))
          = false) as Hr.
  { unfold capture_memory_dump.
    change (fault_address (set_memory_readable false ?i))
      with (fault_address i).
    rewrite Haddr, (proj2 (Z.eqb_neq _ _) Hnz).
    change MEMORY_DUMP_SIZE with (S 255) at 2.
    by rewrite copy_loop_first_unreadable. }
  unfold captured. rewrite Hb.
  destruct (capture_memory_dump E _) as [ci fault].
  simpl in Hf, Hr. subst fault. done.
Qed.

(** The stack trace in the crash structure after a first entry that reaches
    the report step: at most [MAX_STACK_FRAMES] frames, the nonzero program
    counters of the stack in order. *)
Lemma handler_stack_trace E sig info context p :
  handling_crash p = false →
  snd (captured E sig info context) = None →
  let ci := g_crash_info (signal_handler E sig info context p) in
  (frame_count ci ≤ MAX_STACK_FRAMES build)%nat ∧
  take (frame_count ci) (stack_frames ci)
  = take (MAX_STACK_FRAMES build) (kept (env_backtrace E)) ∧
  Forall (λ a : Z, a ≠ 0) (take (frame_count ci) (stack_frames ci)).
Proof.
  intros Hflag Hcap ci. subst ci.
  rewrite signal_handler_first by done.
  pose proof (captured_keeps E sig info context) as (_ & Hframes & _).
  destruct (captured E sig info context) as [ci fault].
  simpl in Hcap, Hframes. subst fault.
  pose proof (report_and_chain_frame E sig ci (set_handling_crash true p))
    as (-> & _).
  pose proof (unwound_frames E ci Hframes) as (_ & Hn & Ht).
  split; [done|]. split; [done|].
  rewrite Ht. apply Forall_take, kept_nonzero.
Qed.

(** In an enhanced build, a first entry at a nonzero fault address whose two
    windows are readable leaves their memory content in the crash structure
    and marks it readable. *)
Lemma enhanced_window_captured E sig info context p mb ma :
  build = Enhanced →
  handling_crash p = false →
  si_addr info ≠ 0 →
  window_bytes E (si_addr info - Z.of_nat MEMORY_DUMP_SIZE) = Some mb →
  window_bytes E (si_addr info) = Some ma →
  let ci := g_crash_info (signal_handler E sig info context p) in
  memory_before ci = mb ∧ memory_after ci = ma ∧ memory_readable ci = true.
Proof.
  intros Hb Hflag Hnz Hmb Hma ci. subst ci.
  rewrite signal_handler_first by done.
  pose proof (capture_registers_keeps (collect E sig info) context)
    as (_ & _ & Haddr & Hbefore & Hafter).
  change (fault_address (collect E sig info)) with (si_addr info) in Haddr.
  change (memory_before (collect E sig info))
    with (replicate MEMORY_DUMP_SIZE 0) in Hbefore.
  change (memory_after (collect E sig info))
    with (replicate MEMORY_DUMP_SIZE 0) in Hafter.
  pose proof (capture_memory_dump_readable E
                (capture_registers (collect E sig info) context) mb ma) as H.
  rewrite Haddr, Hbefore, Hafter, length_replicate in H.
  specialize (H Hnz eq_refl eq_refl Hmb Hma).
  unfold captured. rewrite Hb, H.
  by pose proof (report_and_chain_frame E sig
                   (set_memory_readable true
                      (set_memory_after ma
                         (set_memory_before mb
                            (set_memory_readable false
                               (capture_registers (collect E sig info)
                                  context)))))
                   (set_handling_crash true p)) as (-> & _).
Qed.

Lemma isInitialized_after dir p : isInitialized (initialize dir p) = true.
Proof. apply initialize_sets_flag. Qed.

(** * The properties claimed by the specification *)

(** C1.  At most one crash report is written per process lifetime.  For
    every sequence of handler entries, from every process state: the trace
    gains at most one report; after any entry the recursion flag is set; the
    entries after the first add nothing but [_exit(1)] to the trace and leave
    the files as the first entry left them; and an entry that finds the flag
    set is exactly [_exit(1)]: the process ends with exit code 1, no file is
    opened or written, no saved handler is called, the crash structure is
    not touched. *)
Theorem C1_single_report (fs : list fault) (f : fault) (p : process) :
  (reports (trace (handle_all fs p)) ≤ reports (trace p) + 1)%nat ∧
  handling_crash (handle p f) = true ∧
  trace (handle_all (f :: fs) p)
  = trace (handle p f) ++ replicate (length fs) (EvExit 1) ∧
  files (handle_all (f :: fs) p) = files (handle p f) ∧
  (handling_crash p = true →
   handle p f = sys_exit 1 p ∧
   status (handle p f) = Exited 1 ∧
   trace (handle p f) = trace p ++ [EvExit 1] ∧
   files (handle p f) = files p ∧
   g_crash_info (handle p f) = g_crash_info p).
Proof.
  assert (∀ g gs q,
            trace (handle_all (g :: gs) q)
            = trace (handle q g) ++ replicate (length gs) (EvExit 1) ∧
            files (handle_all (g :: gs) q) = files (handle q g)) as Hrest.
  { intros g gs q.
    change (handle_all (g :: gs) q) with (handle_all gs (handle q g)).
    pose proof (handle_all_guarded gs (handle q g)
                  (signal_handler_sets_flag _ _ _ _ _)) as (-> & -> & _).
    done. }
  split; [|split; [|split; [|split]]].
  - destruct fs as [|g gs]; [simpl; lia|].
    destruct (Hrest g gs p) as [-> _].
    rewrite reports_app, reports_exits.
    pose proof (signal_handler_reports (f_env g) (f_sig g) (f_info g)
                  (f_context g) p).
    unfold handle. lia.
  - apply signal_handler_sets_flag.
  - apply Hrest.
  - apply Hrest.
  - intros H. unfold handle. by rewrite signal_handler_reentry.
Qed.

(** C4.  Installation is idempotent.  Whatever the directory arguments,
    after a second [initialize] the saved prior dispositions, the report
    path and the initialized flag are those the first call left (the flag
    being set), the kernel's dispositions are unchanged too, and all the
    second call does is log that the handler is already initialized. *)
Theorem C4_initialize_idempotent (dir1 dir2 : string) (p : process) :
  let p1 := initialize dir1 p in
  let p2 := initialize dir2 p1 in
  g_old_handlers p2 = g_old_handlers p1 ∧
  g_crash_file_path p2 = g_crash_file_path p1 ∧
  g_initialized p2 = g_initialized p1 ∧
  g_initialized p1 = true ∧
  dispositions p2 = dispositions p1 ∧
  trace p2
  = trace p1 ++ [EvLog ANDROID_LOG_DEBUG LOG_TAG
                   "Native crash handler already initialized"].
Proof.
  intros p1 p2. subst p2.
  pose proof (initialize_sets_flag dir1 p) as H. fold p1 in H.
  unfold initialize at 1 2 3 4 5. by rewrite H.
Qed.

(** C5.  The unwind walk is bounded.  Called with an array of at least
    [max] entries, [capture_stack_trace] returns a frame count that is at
    most [max]: the smaller of [max] and the number of frames with a nonzero
    program counter on the stack.  The captured frames are those frames, in
    stack order, cut at [max]; so a stack that ends early gives a shorter
    sequence and nothing else.  The walk visits no frame beyond the end of
    the stack; it stops before that end only on a callback that finds [max]
    frames already stored; and every callback before the last one ran with
    fewer than [max] frames stored. *)
Theorem C5_unwind_bounded (E : environment) (buf : list Z) (max : nat) :
  (max ≤ length buf)%nat →
  let stack := env_backtrace E in
  let fr := fst (capture_stack_trace E buf max) in
  let n := snd (capture_stack_trace E buf max) in
  let visited := snd (unwind_walk stack buf max) in
  (n ≤ max)%nat ∧
  n = Nat.min (length (kept stack)) max ∧
  take n fr = take max (kept stack) ∧
  (visited ≤ length stack)%nat ∧
  ((visited < length stack)%nat →
   n = max ∧ length (kept (take (visited - 1) stack)) = max) ∧
  (∀ j : nat, (j + 1 < visited)%nat →
     (length (kept (take j stack)) < max)%nat).
Proof.
  intros Hbuf stack fr n visited.
  pose proof (walk_frames stack (MkUnwindState buf 0 max)
                ltac:(simpl; lia) ltac:(simpl; lia)) as (_ & _ & Hn & Ht).
  pose proof (walk_visited stack (MkUnwindState buf 0 max)
                ltac:(simpl; lia)) as (Hv & _ & Hstop & Hroom).
  cbn [us_frame_count frames max_frames] in *.
  rewrite Nat.sub_0_r in Ht. rewrite take_0 in Ht.
  change (us_frame_count
            (fst (_Unwind_Backtrace unwind_callback stack
                    (MkUnwindState buf 0 max)))) with n in *.
  change (frames
            (fst (_Unwind_Backtrace unwind_callback stack
                    (MkUnwindState buf 0 max)))) with fr in *.
  change (snd (_Unwind_Backtrace unwind_callback stack
                 (MkUnwindState buf 0 max))) with visited in *.
  split; [lia|]. split; [lia|]. split; [done|]. split; [done|]. split.
  - intros Hlt. specialize (Hstop Hlt).
    pose proof (kept_take_le (visited - 1) stack). lia.
  - intros j Hj. specialize (Hroom j Hj). lia.
Qed.

(** C10.  Every address recorded in a captured stack trace is nonzero:
    whatever the unwinder presents, each of the [frame_count] entries that
    [capture_stack_trace] reports is there and is not zero. *)
Theorem C10_frames_nonzero (E : environment) (buf : list Z) (max : nat) :
  (max ≤ length buf)%nat →
  let fr := fst (capture_stack_trace E buf max) in
  let n := snd (capture_stack_trace E buf max) in
  Forall (λ a : Z, a ≠ 0) (take n fr) ∧
  ∀ i : nat, (i < n)%nat → ∃ a : Z, fr !! i = Some a ∧ a ≠ 0.
Proof.
  intros Hbuf fr n.
  pose proof (walk_frames (env_backtrace E) (MkUnwindState buf 0 max)
                ltac:(simpl; lia) ltac:(simpl; lia)) as (_ & Hl & Hn & Ht).
  cbn [us_frame_count frames max_frames] in *.
  rewrite Nat.sub_0_r in Ht. rewrite take_0 in Ht.
  change (us_frame_count
            (fst (_Unwind_Backtrace unwind_callback (env_backtrace E)
                    (MkUnwindState buf 0 max)))) with n in *.
  change (frames
            (fst (_Unwind_Backtrace unwind_callback (env_backtrace E)
                    (MkUnwindState buf 0 max)))) with fr in *.
  assert (Forall (λ a : Z, a ≠ 0) (take n fr)) as Hall.
  { rewrite Ht. simpl. apply Forall_take, kept_nonzero. }
  split; [done|].
  intros i Hi.
  destruct (lookup_lt_is_Some_2 fr i ltac:(lia)) as [a Ha].
  exists a. split; [done|].
  eapply (proj1 (Forall_lookup _ _) Hall i).
  by rewrite lookup_take_lt.
Qed.

(** C6.  After the report and the chain step the handler resets the signal
    to its default disposition and raises it again.  For a first entry on a
    signal the handler is registered for, whose capture steps raise no fault
    and whose chained handler, if there is one, returns: the last two calls
    of the run are [signal(sig, SIG_DFL)] and [raise(sig)], the kernel then
    holds the default disposition for the signal, and the process ends
    killed by that signal, which is how a process with no handler installed
    ends on it. *)
Theorem C6_reraise_default (E : environment) (sig : Z) (info : siginfo_t)
    (context : option ucontext_t) (p : process) :
  handling_crash p = false →
  snd (captured E sig info context) = None →
  (∀ fn, env_call E fn = Returns) →
  sig ∈ handled_signals →
  let p' := signal_handler E sig info context p in
  (∃ before, trace p' = before ++ [EvSignal sig SIG_DFL; EvRaise sig]) ∧
  sa_handler (disposition p' sig) = SIG_DFL ∧
  status p' = Killed sig ∧
  status p' = status (sys_raise sig (process_start build target ∅ (files p))).
Proof.
  intros Hflag Hcap Hret Hsig p'. subst p'.
  rewrite signal_handler_completes by done. cbv zeta.
  set (q := emit _ _).
  pose proof (reraise_status sig q Hsig) as [Hst Hd].
  split; [|split; [|split]].
  - eexists. apply reraise_trace.
  - by rewrite Hd.
  - done.
  - by rewrite Hst, raise_without_handler.
Qed.

(** C9.  When the report file cannot be created the report is abandoned in
    silence and the handler goes on.  For a first entry whose capture steps
    raise no fault, whose [open] fails and whose chained handler, if there
    is one, returns: no file changes, and after the failed [open] the run
    consists of the call of the saved handler (when there is one to call),
    [signal(sig, SIG_DFL)] and [raise(sig)]; nothing is written and nothing
    is logged. *)
Theorem C9_open_failure (E : environment) (sig : Z) (info : siginfo_t)
    (context : option ucontext_t) (p : process) :
  handling_crash p = false →
  snd (captured E sig info context) = None →
  env_open E (g_crash_file_path p) = false →
  (∀ fn, env_call E fn = Returns) →
  let p' := signal_handler E sig info context p in
  files p' = files p ∧
  trace p'
  = trace p ++ [EvOpen (g_crash_file_path p) false] ++ chain_events sig p
    ++ [EvSignal sig SIG_DFL; EvRaise sig].
Proof.
  intros Hflag Hcap Hopen Hret p'. subst p'.
  rewrite signal_handler_completes by done. cbv zeta.
  set (ci := unwound E _). set (q := set_handling_crash true p).
  pose proof (reraise_globals sig
                (emit (chain_events sig q)
                   (write_crash_to_file E ci (set_crash_info ci q))))
    as (Hf & _).
  rewrite Hf, reraise_trace.
  unfold write_crash_to_file.
  change (g_crash_file_path (set_crash_info ci q)) with (g_crash_file_path p).
  rewrite Hopen. split; [done|].
  unfold emit. cbn [trace set_crash_info set_handling_crash q].
  by rewrite <- !app_assoc.
Qed.


(** Thread-name and symbol-resolution failures are replaced by placeholders
    and the report goes on.  For a first entry that reaches the report step
    with an [open] that succeeds, with the thread id an [int] and the
    unwinder's program counters pointer-sized: if the thread-name lookup is
    not available or fails, the thread name is [Thread-] followed by the
    thread id in decimal; a frame [dladdr] cannot resolve gets the line of
    its index and address followed by [???]; and whatever these lookups
    answered, the file holds the complete report, with its header and one
    line for each of the [frame_count] frames. *)
Lemma placeholders_complete_report (E : environment) (sig : Z) (info : siginfo_t)
    (context : option ucontext_t) (p : process) :
  handling_crash p = false →
  snd (captured E sig info context) = None →
  env_open E (g_crash_file_path p) = true →
  - 2 ^ 31 ≤ env_tid E < 2 ^ 31 →
  Forall (λ a : Z, 0 ≤ a < 2 ^ ptr_bits target) (env_backtrace E) →
  let p' := signal_handler E sig info context p in
  let ci := g_crash_info p' in
  (ANDROID_API < 26 ∨ env_getname E = None →
   thread_name ci = "Thread-" +:+ fmt_d (env_tid E)) ∧
  (∀ i : nat, (i < frame_count ci)%nat →
     env_dladdr E (stack_frames ci !!! i) = None →
     frame_line E ci i = unresolved_line i (stack_frames ci !!! i)) ∧
  files p' !! g_crash_file_path p = Some (report_text E ci) ∧
  print E (header_text ci) ∈ report_chunks E ci ∧
  (∀ i : nat, (i < frame_count ci)%nat →
     frame_line E ci i ∈ report_chunks E ci).
Proof.
  intros Hflag Hcap Hopen Htid Hstack p' ci. subst ci p'.
  rewrite signal_handler_first by done.
  pose proof (captured_keeps E sig info context) as (Hname & Hframes & _).
  destruct (captured E sig info context) as [ci fault].
  simpl in Hcap, Hname, Hframes. subst fault.
  pose proof (report_written E sig ci (set_handling_crash true p)) as H.
  change (g_crash_file_path (set_handling_crash true p))
    with (g_crash_file_path p) in H.
  specialize (H Hopen). cbv zeta in H. destruct H as (Hci & Hf & _).
  rewrite Hci, Hf.
  pose proof (unwound_frames E ci Hframes) as (Hth & Hn & _).
  split; [|split; [|split; [|split]]].
  - intros Hfail. rewrite Hth, Hname. by apply get_thread_name_fallback.
  - intros i Hi Hdl. unfold frame_line. rewrite Hdl.
    destruct (unwound_frame_on_stack E ci i Hframes Hi) as [Hin _].
    pose proof (proj1 (Forall_forall _ _) Hstack _ Hin) as Hrange.
    cbv beta in Hrange.
    pose proof ptr_bits_le.
    unfold print. apply written_fits, unresolved_line_fits; [|lia].
    assert (MAX_STACK_FRAMES build ≤ 128)%nat
      by (unfold MAX_STACK_FRAMES; destruct build; lia).
    lia.
  - apply lookup_insert_eq.
  - apply header_in_report.
  - intros i Hi. by apply frame_line_in_report.
Qed.

(** The saved dispositions [sigaction] hands out give [sa_sigaction] and
    [sa_handler] the same word, so the chain step calls through every saved
    word but zero: the default sentinel is not called, the ignore sentinel
    is. *)
Lemma chain_events_saved (sig fn flags : Z) (mask : list Z) (p : process) :
  g_old_handlers p !!! Z.to_nat sig = sigaction_of fn flags mask →
  chain_events sig p
  = if fn =? 0 then [] else [EvCallSigaction fn sig].
Proof.
  intros H. unfold chain_events. rewrite H.
  cbn [sa_sigaction sa_handler sigaction_of].
  destruct (fn =? 0); [|done]. done.
Qed.

(** * Further properties of the handler *)

(** ** Installation *)

(** One [sigaction] call of [initialize]. *)
Lemma install_one_state sig sa p :
  catchable sig = true →
  dispositions (install_one sig sa p) = <[sig:=sa]> (dispositions p) ∧
  g_old_handlers (install_one sig sa p)
  = <[Z.to_nat sig:=disposition p sig]> (g_old_handlers p).
Proof. intros H. unfold install_one, sys_sigaction. by rewrite H. Qed.

Lemma disposition_install_one sig sig' sa p :
  catchable sig = true → sig ≠ sig' →
  disposition (install_one sig sa p) sig' = disposition p sig'.
Proof.
  intros H Hne. unfold disposition.
  rewrite (proj1 (install_one_state sig sa p H)).
  by rewrite lookup_insert_ne.
Qed.

Lemma catchable_handled :
  catchable SIGSEGV = true ∧ catchable SIGABRT = true ∧
  catchable SIGFPE = true ∧ catchable SIGILL = true ∧
  catchable SIGBUS = true ∧ catchable SIGTRAP = true.
Proof. repeat split; vm_compute; reflexivity. Qed.

(** Closes goals that compare the numbers of the handled signals. *)
Ltac signal_numbers :=
  cbv delta [SIGSEGV SIGABRT SIGFPE SIGILL SIGBUS SIGTRAP] in *; lia.

Lemma handled_distinct :
  SIGSEGV ≠ SIGABRT ∧ SIGSEGV ≠ SIGFPE ∧ SIGSEGV ≠ SIGILL ∧
  SIGSEGV ≠ SIGBUS ∧ SIGSEGV ≠ SIGTRAP ∧ SIGABRT ≠ SIGFPE ∧
  SIGABRT ≠ SIGILL ∧ SIGABRT ≠ SIGBUS ∧ SIGABRT ≠ SIGTRAP ∧
  SIGFPE ≠ SIGILL ∧ SIGFPE ≠ SIGBUS ∧ SIGFPE ≠ SIGTRAP ∧
  SIGILL ≠ SIGBUS ∧ SIGILL ≠ SIGTRAP ∧ SIGBUS ≠ SIGTRAP.
Proof. signal_numbers. Qed.

Lemma through_initialized evs b q :
  dispositions (emit evs (set_initialized b q)) = dispositions q ∧
  g_old_handlers (emit evs (set_initialized b q)) = g_old_handlers q.
Proof. done. Qed.

Lemma initialize_unfold dir p :
  g_initialized p = false →
  initialize dir p
  = let sa := installed_action signal_handler_ptr in
    let path := fst (snprintf 256 (dir +:+ "/native_crash.txt")) in
    emit [EvLog ANDROID_LOG_INFO LOG_TAG initialized_message]
      (set_initialized true
         (install_one SIGTRAP sa (install_one SIGBUS sa (install_one SIGILL sa
            (install_one SIGFPE sa (install_one SIGABRT sa
               (install_one SIGSEGV sa
                  (emit [EvLog ANDROID_LOG_INFO LOG_TAG
                           (initializing_message +:+ path)]
                     (set_crash_file_path path p))))))))).
Proof. intros H. unfold initialize. rewrite H. reflexivity. Qed.

(** The kernel table and the saved table after a first [initialize]. *)
Lemma initialize_fresh_state dir p :
  g_initialized p = false →
  let sa := installed_action signal_handler_ptr in
  dispositions (initialize dir p)
  = <[SIGTRAP:=sa]> (<[SIGBUS:=sa]> (<[SIGILL:=sa]> (<[SIGFPE:=sa]>
      (<[SIGABRT:=sa]> (<[SIGSEGV:=sa]> (dispositions p)))))) ∧
  g_old_handlers (initialize dir p)
  = <[5%nat:=disposition p SIGTRAP]> (<[7%nat:=disposition p SIGBUS]>
      (<[4%nat:=disposition p SIGILL]> (<[8%nat:=disposition p SIGFPE]>
         (<[6%nat:=disposition p SIGABRT]>
            (<[11%nat:=disposition p SIGSEGV]> (g_old_handlers p)))))).
Proof.
  intros H sa. rewrite (initialize_unfold dir p H). cbv zeta. fold sa.
  destruct catchable_handled as (C1 & C2 & C3 & C4 & C5 & C6).
  pose proof handled_distinct as Hne.
  set (p0 := emit [EvLog ANDROID_LOG_INFO LOG_TAG
                     (initializing_message +:+ _)] _).
  assert (dispositions p0 = dispositions p) as HD0 by reflexivity.
  assert (g_old_handlers p0 = g_old_handlers p) as HO0 by reflexivity.
  assert (∀ s, disposition p0 s = disposition p s) as Hd0 by reflexivity.
  clearbody p0.
  split.
  - rewrite (proj1 (through_initialized _ _ _)).
    rewrite !(λ s q H, proj1 (install_one_state s sa q H)) by assumption.
    by rewrite HD0.
  - rewrite (proj2 (through_initialized _ _ _)).
    rewrite !(λ s q H, proj2 (install_one_state s sa q H)) by assumption.
    rewrite !disposition_install_one by tauto.
    by rewrite HO0, !Hd0.
Qed.

(** X2.  A first [initialize] registers the handler, with [SA_SIGINFO] and
    [SA_ONSTACK], for the six handled signals and for no other: the
    disposition of every other signal is what it was. *)
Theorem X2_initialize_installs (dir : string) (p : process) (sig : Z) :
  g_initialized p = false →
  disposition (initialize dir p) sig
  = if bool_decide (sig ∈ handled_signals)
    then installed_action signal_handler_ptr
    else disposition p sig.
Proof.
  intros H. unfold disposition at 1.
  rewrite (proj1 (initialize_fresh_state dir p H)).
  pose proof handled_distinct as Hne.
  destruct (bool_decide_reflect (sig ∈ handled_signals)) as [Hin|Hout].
  - unfold handled_signals in Hin.
    rewrite !elem_of_cons, elem_of_nil in Hin.
    destruct Hin as [->|[->|[->|[->|[->|[->|[]]]]]]];
      repeat (rewrite lookup_insert_ne by signal_numbers);
      by rewrite lookup_insert_eq.
  - unfold handled_signals in Hout.
    rewrite !elem_of_cons, elem_of_nil in Hout.
    rewrite !lookup_insert_ne by (intros <-; tauto).
    reflexivity.
Qed.

Lemma initialize_saved_slot dir p sig :
  g_initialized p = false →
  length (g_old_handlers p) = 32%nat →
  sig ∈ handled_signals →
  g_old_handlers (initialize dir p) !!! Z.to_nat sig = disposition p sig.
Proof.
  intros H Hlen Hin.
  rewrite (proj2 (initialize_fresh_state dir p H)).
  unfold handled_signals in Hin.
  rewrite !elem_of_cons, elem_of_nil in Hin.
  destruct Hin as [->|[->|[->|[->|[->|[->|[]]]]]]];
    [change (Z.to_nat SIGSEGV) with 11%nat
    |change (Z.to_nat SIGABRT) with 6%nat
    |change (Z.to_nat SIGFPE) with 8%nat
    |change (Z.to_nat SIGILL) with 4%nat
    |change (Z.to_nat SIGBUS) with 7%nat
    |change (Z.to_nat SIGTRAP) with 5%nat];
    repeat (rewrite list_lookup_total_insert_ne by lia);
    rewrite list_lookup_total_insert_eq
      by (rewrite ?length_insert; lia);
    reflexivity.
Qed.

(** X3.  A first [initialize] saves, for each handled signal, the
    disposition that was active before the call in the slot of that signal
    number; the table keeps its 32 slots and every other slot is left as it
    was. *)
Theorem X3_initialize_saves_previous (dir : string) (p : process) :
  g_initialized p = false →
  length (g_old_handlers p) = 32%nat →
  let p' := initialize dir p in
  length (g_old_handlers p') = 32%nat ∧
  (∀ sig : Z, sig ∈ handled_signals →
     g_old_handlers p' !!! Z.to_nat sig = disposition p sig) ∧
  (∀ n : nat, Z.of_nat n ∉ handled_signals →
     g_old_handlers p' !! n = g_old_handlers p !! n).
Proof.
  intros H Hlen p'. unfold p'.
  split; [|split].
  - rewrite (proj2 (initialize_fresh_state dir p H)).
    by rewrite !length_insert.
  - intros sig Hin. by apply initialize_saved_slot.
  - intros n Hout. rewrite (proj2 (initialize_fresh_state dir p H)).
    unfold handled_signals in Hout.
    rewrite !elem_of_cons, elem_of_nil in Hout.
    rewrite !list_lookup_insert_ne by signal_numbers.
    reflexivity.
Qed.

(** X4.  Installing and then faulting chains to the handler that was there
    before.  When a handled signal had a handler registered before a first
    [initialize], a first entry for that signal that reaches the end of the
    handler calls that very handler once, with the signal number, after the
    report was written and closed and before the signal is reset and raised
    again. *)
Theorem X4_previous_handler_chained (dir : string) (E : environment)
    (sig : Z) (info : siginfo_t) (context : option ucontext_t) (p : process)
    (h flags : Z) (mask : list Z) :
  g_initialized p = false →
  handling_crash p = false →
  length (g_old_handlers p) = 32%nat →
  sig ∈ handled_signals →
  disposition p sig = sigaction_of h flags mask →
  h ≠ 0 →
  snd (captured E sig info context) = None →
  (∀ fn, env_call E fn = Returns) →
  let p1 := initialize dir p in
  let p2 := signal_handler E sig info context p1 in
  trace p2
  = trace p1 ++ report_events E (g_crash_info p2) (g_crash_file_path p1)
    ++ [EvCallSigaction h sig; EvSignal sig SIG_DFL; EvRaise sig].
Proof.
  intros Hinit Hflag Hlen Hsig Hold Hh Hcap Hret p1 p2.
  pose proof (initialize_saved_slot dir p sig Hinit Hlen Hsig) as Hslot.
  pose proof (initialize_fresh dir p Hinit) as (_ & _ & Hflag1).
  fold p1 in Hslot, Hflag1. rewrite Hflag in Hflag1. rewrite Hold in Hslot.
  clearbody p1. unfold p2. clear p2.
  rewrite signal_handler_first by done.
  destruct (captured E sig info context) as [ci fault].
  simpl in Hcap. subst fault.
  pose proof (report_and_chain_frame E sig ci (set_handling_crash true p1))
    as (-> & _).
  rewrite report_and_chain_returns by done.
  rewrite reraise_trace.
  unfold emit at 1. cbn [trace].
  rewrite write_crash_to_file_trace.
  rewrite (chain_events_saved sig h flags mask (set_handling_crash true p1))
    by exact Hslot.
  rewrite (proj2 (Z.eqb_neq _ _) Hh).
  unfold set_crash_info, set_handling_crash. cbn [trace g_crash_file_path].
  by rewrite <- !app_assoc.
Qed.

(** ** Signal tables *)

Ltac signal_cases sig :=
  destruct (Z.eqb_spec sig SIGSEGV) as [->|?];
  [|destruct (Z.eqb_spec sig SIGABRT) as [->|?];
    [|destruct (Z.eqb_spec sig SIGFPE) as [->|?];
      [|destruct (Z.eqb_spec sig SIGILL) as [->|?];
        [|destruct (Z.eqb_spec sig SIGBUS) as [->|?];
          [|destruct (Z.eqb_spec sig SIGTRAP) as [->|?]]]]]].

Lemma get_signal_name_other sig :
  sig ∉ handled_signals → get_signal_name sig = "UNKNOWN".
Proof.
  unfold handled_signals. rewrite !elem_of_cons, elem_of_nil. intros H.
  unfold get_signal_name. signal_cases sig; tauto.
Qed.

Lemma get_signal_description_other sig :
  sig ∉ handled_signals → get_signal_description sig = "Unknown signal".
Proof.
  unfold handled_signals. rewrite !elem_of_cons, elem_of_nil. intros H.
  unfold get_signal_description. signal_cases sig; tauto.
Qed.

Lemma handled_cases sig :
  sig ∈ handled_signals ∨ sig ∉ handled_signals.
Proof. destruct (decide (sig ∈ handled_signals)); tauto. Qed.

Lemma get_signal_name_length sig :
  (String.length (get_signal_name sig) ≤ 7)%nat.
Proof. unfold get_signal_name. signal_cases sig; simpl; lia. Qed.

Lemma get_signal_description_length sig :
  (String.length (get_signal_description sig) ≤ 42)%nat.
Proof. unfold get_signal_description. signal_cases sig; simpl; lia. Qed.

(** X1.  The two signal tables cover exactly the signals [initialize]
    registers the handler for: a signal gets the name [UNKNOWN], or the
    description [Unknown signal], if and only if it is not one of the six
    handled signals.  The names of the handled signals are pairwise
    different, and every name fits the 32-byte [signal_name] member, so the
    copy into the crash structure never cuts it. *)
Theorem X1_signal_tables (sig : Z) :
  (get_signal_name sig = "UNKNOWN" ↔ sig ∉ handled_signals) ∧
  (get_signal_description sig = "Unknown signal" ↔ sig ∉ handled_signals) ∧
  strncpy 31 (get_signal_name sig) = get_signal_name sig ∧
  (∀ sig' : Z, sig ∈ handled_signals →
     get_signal_name sig' = get_signal_name sig → sig' = sig).
Proof.
  split; [|split; [|split]].
  - split; [|apply get_signal_name_other].
    unfold handled_signals. rewrite !elem_of_cons, elem_of_nil.
    unfold get_signal_name. signal_cases sig; (discriminate || tauto).
  - split; [|apply get_signal_description_other].
    unfold handled_signals. rewrite !elem_of_cons, elem_of_nil.
    unfold get_signal_description. signal_cases sig; (discriminate || tauto).
  - unfold strncpy. apply substring_all.
    pose proof (get_signal_name_length sig). lia.
  - intros sig'. unfold handled_signals.
    rewrite !elem_of_cons, elem_of_nil.
    intros [->|[->|[->|[->|[->|[->|[]]]]]]];
      unfold get_signal_name; signal_cases sig';
      (reflexivity || discriminate).
Qed.

(** ** The report path *)

(** X5.  Whatever the report directory, the path a first [initialize]
    stores fits its 256-byte buffer: it is the first 255 bytes of
    [<report_directory>/native_crash.txt], hence a prefix of it and at most
    255 bytes long; its length is the smaller of 255 and the directory
    length plus 17. *)
Theorem X5_report_path_bounded (dir : string) (p : process) :
  g_initialized p = false →
  let full := dir +:+ "/native_crash.txt" in
  let path := g_crash_file_path (initialize dir p) in
  path = String.substring 0 255 full ∧
  String.prefix path full = true ∧
  String.length path = Nat.min 255 (String.length dir + 17) ∧
  (String.length path ≤ 255)%nat.
Proof.
  intros H full path.
  pose proof (initialize_fresh dir p H) as (Hpath & _).
  assert (path = String.substring 0 255 full) as -> by exact Hpath.
  split; [done|]. split; [apply prefix_substring|].
  rewrite length_substring_min. unfold full. rewrite length_append.
  change (String.length "/native_crash.txt") with 17%nat.
  split; lia.
Qed.

(** ** What the handler leaves alone *)

Lemma signal_handler_keeps E sig info context p :
  let p' := signal_handler E sig info context p in
  g_crash_file_path p' = g_crash_file_path p ∧
  g_old_handlers p' = g_old_handlers p ∧
  g_initialized p' = g_initialized p.
Proof.
  destruct (handling_crash p) eqn:H.
  - by rewrite signal_handler_reentry.
  - rewrite signal_handler_first by done.
    destruct (captured E sig info context) as [ci [a|]]; [done|].
    pose proof (report_and_chain_spec E sig ci (set_handling_crash true p))
      as (_ & _ & Ho & Hp).
    pose proof (report_and_chain_frame E sig ci (set_handling_crash true p))
      as (_ & Hi & _).
    cbv zeta in *. by rewrite Ho, Hp, Hi.
Qed.

(** X6.  The handler never writes the installation state: over every
    sequence of handler entries, from every process state, the report path,
    the table of saved dispositions and the initialized flag stay what they
    were, so [isInitialized] keeps answering what it answered before. *)
Theorem X6_handler_keeps_installation (fs : list fault) (p : process) :
  g_crash_file_path (handle_all fs p) = g_crash_file_path p ∧
  g_old_handlers (handle_all fs p) = g_old_handlers p ∧
  g_initialized (handle_all fs p) = g_initialized p ∧
  isInitialized (handle_all fs p) = isInitialized p.
Proof.
  unfold handle_all, isInitialized.
  revert p. induction fs as [|f fs IH]; intros p; [done|].
  cbn [foldl]. destruct (IH (handle p f)) as (-> & -> & -> & _).
  unfold handle.
  pose proof (signal_handler_keeps (f_env f) (f_sig f) (f_info f)
                (f_context f) p) as (-> & -> & ->).
  done.
Qed.

Lemma report_and_chain_dispositions E sig ci p (sig' : Z) :
  sig' ≠ sig →
  dispositions (report_and_chain E sig ci p) !! sig' = dispositions p !! sig'.
Proof.
  intros Hne.
  unfold report_and_chain, write_crash_to_file, chain_old_handler, call_saved,
    sys_raise, sys_signal.
  cbn [g_crash_info g_crash_file_path set_crash_info].
  repeat match goal with
         | |- context [if ?b then _ else _] => destruct b
         | |- context [match env_call ?e ?f with _ => _ end] =>
             destruct (env_call e f)
         | |- context [match default_action_of ?s with _ => _ end] =>
             destruct (default_action_of s)
         end;
    cbn [dispositions emit set_status set_disposition set_file set_crash_info];
    rewrite ?lookup_insert_ne by done; reflexivity.
Qed.

(** X7.  A handler entry changes no signal disposition but that of the
    signal it was entered for: for every other signal the kernel holds,
    after the entry, the disposition it held before, whether the entry
    wrote a report, faulted or found the recursion flag set. *)
Theorem X7_other_dispositions_kept (E : environment) (sig : Z)
    (info : siginfo_t) (context : option ucontext_t) (p : process)
    (sig' : Z) :
  sig' ≠ sig →
  disposition (signal_handler E sig info context p) sig' = disposition p sig'.
Proof.
  intros Hne. unfold disposition.
  destruct (handling_crash p) eqn:H.
  - by rewrite signal_handler_reentry.
  - rewrite signal_handler_first by done.
    destruct (captured E sig info context) as [ci [a|]]; [done|].
    by rewrite report_and_chain_dispositions.
Qed.

(** ** The file descriptor *)

Lemma closes_app (a b : list event) :
  closes (a ++ b) = (closes a + closes b)%nat.
Proof. unfold closes. by rewrite filter_app, length_app. Qed.

Lemma closes_writes (chunks : list string) :
  closes (EvWrite <$> chunks) = 0%nat.
Proof. induction chunks as [|c cs IH]; [done|]. exact IH. Qed.

Lemma report_events_balanced E info path :
  closes (report_events E info path) = reports (report_events E info path).
Proof.
  unfold report_events. destruct (env_open E path); [|reflexivity].
  rewrite !closes_app, !reports_app, closes_writes, reports_writes.
  reflexivity.
Qed.

Lemma chain_events_closes sig p : closes (chain_events sig p) = 0%nat.
Proof.
  unfold chain_events.
  repeat match goal with |- context [if ?b then _ else _] => destruct b end;
    reflexivity.
Qed.

Lemma signal_handler_balanced E sig info context p :
  (closes (trace (signal_handler E sig info context p)) + reports (trace p)
   = reports (trace (signal_handler E sig info context p)) + closes (trace p))%nat.
Proof.
  destruct (handling_crash p) eqn:H.
  - rewrite signal_handler_reentry by done.
    unfold sys_exit, set_status, emit. cbn [trace].
    rewrite closes_app, reports_app.
    change (closes [EvExit 1]) with 0%nat.
    change (reports [EvExit 1]) with 0%nat. lia.
  - rewrite signal_handler_first by done.
    destruct (captured E sig info context) as [ci [a|]].
    + unfold set_status, set_crash_info, set_handling_crash. cbn [trace]. lia.
    + pose proof (report_and_chain_spec E sig ci (set_handling_crash true p))
        as ((tail & Ht & Htail) & _).
      cbv zeta in Ht. rewrite Ht.
      change (trace (set_handling_crash true p)) with (trace p).
      rewrite !closes_app, !reports_app, report_events_balanced,
        chain_events_closes, chain_events_reports.
      assert (closes tail = 0%nat ∧ reports tail = 0%nat) as [-> ->]
        by (destruct Htail as [-> | ->]; split; reflexivity).
      lia.
Qed.

(** X8.  The report file descriptor never leaks: over every sequence of
    handler entries the trace gains exactly as many [close] calls as
    successful [open]s of the report file, and a failed [open] is followed
    by no [close]. *)
Theorem X8_open_close_balanced (fs : list fault) (p : process) :
  (closes (trace (handle_all fs p)) + reports (trace p)
   = reports (trace (handle_all fs p)) + closes (trace p))%nat.
Proof.
  unfold handle_all. revert p.
  induction fs as [|f fs IH]; intros p; [cbn [foldl]; lia|].
  cbn [foldl]. specialize (IH (handle p f)).
  pose proof (signal_handler_balanced (f_env f) (f_sig f) (f_info f)
                (f_context f) p) as H.
  fold (handle p f) in H. unfold handle in *. lia.
Qed.

(** ** Null fault address *)

Lemma capture_memory_dump_null E info :
  fault_address info = 0 →
  capture_memory_dump E info = (set_memory_readable false info, None).
Proof.
  intros H. unfold capture_memory_dump.
  change (fault_address (set_memory_readable false info))
    with (fault_address info).
  by rewrite H.
Qed.

(** X9.  A fault at the null address never touches memory in the enhanced
    handler.  Whatever memory is readable, a first entry with a null fault
    address raises no fault in its capture steps, leaves both window
    buffers zeroed and [memory_readable] false, and its report has no
    memory-dump section. *)
Theorem X9_null_fault_address (E : environment) (sig : Z)
    (info : siginfo_t) (context : option ucontext_t) (p : process) :
  build = Enhanced →
  handling_crash p = false →
  si_addr info = 0 →
  let ci := g_crash_info (signal_handler E sig info context p) in
  snd (captured E sig info context) = None ∧
  memory_readable ci = false ∧
  memory_before ci = replicate MEMORY_DUMP_SIZE 0 ∧
  memory_after ci = replicate MEMORY_DUMP_SIZE 0 ∧
  memory_chunks E ci = [].
Proof.
  intros Hb Hflag Hnull ci. subst ci.
  rewrite signal_handler_first by done.
  pose proof (capture_registers_keeps (collect E sig info) context)
    as (_ & _ & Haddr & Hbefore & Hafter).
  change (fault_address (collect E sig info)) with (si_addr info) in Haddr.
  change (memory_before (collect E sig info))
    with (replicate MEMORY_DUMP_SIZE 0) in Hbefore.
  change (memory_after (collect E sig info))
    with (replicate MEMORY_DUMP_SIZE 0) in Hafter.
  rewrite Hnull in Haddr.
  unfold captured. rewrite Hb.
  rewrite (capture_memory_dump_null E _ Haddr).
  split; [reflexivity|].
  pose proof (report_and_chain_frame E sig
                (set_memory_readable false
                   (capture_registers (collect E sig info) context))
                (set_handling_crash true p)) as (-> & _).
  unfold memory_chunks, unwound, set_stack, set_memory_readable.
  cbn [memory_readable memory_before memory_after].
  by rewrite Hbefore, Hafter.
Qed.

(** ** Registers on the x86 targets *)

Lemma capture_registers_sets info context :
  ∃ r, capture_registers info context = set_registers r info.
Proof.
  unfold capture_registers.
  destruct context as [[m|m|g]|]; destruct target;
    try (eexists; reflexivity);
    exists (registers info); by destruct info.
Qed.

(** X10.  On the two x86 targets the captured registers never reach the
    report: whatever machine context the kernel passes, the writes of
    [write_crash_to_file] are those made for the structure without the
    capture, and the register block is empty.  In a basic build the same
    holds on every target. *)
Theorem X10_x86_registers_not_reported (E : environment) (info : CrashInfo)
    (context : option ucontext_t) :
  build = Basic ∨ target = i386 ∨ target = x86_64 →
  report_chunks E (capture_registers info context) = report_chunks E info ∧
  (target = i386 ∨ target = x86_64 → register_chunks E info = []).
Proof.
  intros H.
  destruct (capture_registers_sets info context) as [r ->].
  split.
  - unfold report_chunks, register_chunks.
    destruct H as [-> | [-> | ->]]; reflexivity.
  - unfold register_chunks. by intros [-> | ->].
Qed.

(** ** The frame array *)

Lemma walk_untouched (stack : list Z) (st : UnwindState) :
  (us_frame_count st ≤ max_frames st)%nat →
  let st' := fst (_Unwind_Backtrace unwind_callback stack st) in
  (us_frame_count st ≤ us_frame_count st')%nat ∧
  ∀ i : nat, (i < us_frame_count st ∨ us_frame_count st' ≤ i)%nat →
    frames st' !! i = frames st !! i.
Proof.
  revert st. induction stack as [|ip rest IH]; intros st Hc;
    cbn [_Unwind_Backtrace].
  - cbn. split; [lia|done].
  - destruct (decide (max_frames st ≤ us_frame_count st)%nat) as [Hfull|Hroom].
    + rewrite unwind_callback_full by done. cbn. split; [lia|done].
    + destruct (decide (ip = 0)) as [->|Hip].
      * rewrite unwind_callback_zero by lia.
        specialize (IH st Hc).
        by destruct (_Unwind_Backtrace unwind_callback rest st) as [st' n].
      * rewrite unwind_callback_push by (done || lia).
        set (st1 := MkUnwindState _ _ _).
        assert (us_frame_count st1 ≤ max_frames st1)%nat as Hc1
          by (cbn; lia).
        specialize (IH st1 Hc1).
        destruct (_Unwind_Backtrace unwind_callback rest st1) as [st' n].
        unfold st1 in IH. cbn [fst frames us_frame_count max_frames] in *.
        destruct IH as (Hle & Hsame).
        split; [lia|].
        intros i Hi. rewrite Hsame by lia.
        apply list_lookup_insert_ne. lia.
Qed.

(** X11.  The unwind callback writes only inside the caller's array.  From
    any state whose count is within [max_frames], with an array of at least
    [max_frames] entries, a walk over any stack keeps the array's length,
    never lowers the count nor takes it past [max_frames], and changes no
    entry outside the slots between the old and the new count. *)
Theorem X11_unwind_writes_in_bounds (stack : list Z) (st : UnwindState) :
  (us_frame_count st ≤ max_frames st)%nat →
  (max_frames st ≤ length (frames st))%nat →
  let st' := fst (_Unwind_Backtrace unwind_callback stack st) in
  length (frames st') = length (frames st) ∧
  (us_frame_count st ≤ us_frame_count st' ≤ max_frames st)%nat ∧
  max_frames st' = max_frames st ∧
  ∀ i : nat, (i < us_frame_count st ∨ us_frame_count st' ≤ i)%nat →
    frames st' !! i = frames st !! i.
Proof.
  intros Hc Hlen st'.
  pose proof (walk_frames stack st Hc Hlen) as (Hm & Hl & Hn & _).
  pose proof (walk_untouched stack st Hc) as (Hle & Hsame).
  fold st' in Hm, Hl, Hn, Hle, Hsame.
  split; [done|]. split; [lia|]. split; [done|]. exact Hsame.
Qed.

(** ** Widths of the printed numbers *)

Lemma length_digits_go_tight b fuel z acc (k : nat) :
  2 ≤ b → 0 ≤ z < b ^ Z.of_nat k → (0 < k)%nat →
  (String.length (digits_go b fuel z acc) ≤ k + String.length acc)%nat.
Proof.
  intros Hb. revert z acc k.
  induction fuel as [|fuel IH]; intros z acc k Hz Hk; cbn [digits_go]; [lia|].
  destruct (z / b =? 0) eqn:Hq; [cbn [String.length]; lia|].
  apply Z.eqb_neq in Hq.
  destruct k as [|[|k]]; [lia| |].
  - exfalso. apply Hq. apply Z.div_small. change (Z.of_nat 1) with 1 in Hz. lia.
  - etrans; [apply (IH _ _ (S k))|cbn [String.length]; lia]; [|lia].
    split; [apply Z.div_pos; lia|].
    apply Z.div_lt_upper_bound; [lia|].
    rewrite <- Z.pow_succ_r by lia.
    replace (Z.succ (Z.of_nat (S k))) with (Z.of_nat (S (S k))) by lia.
    lia.
Qed.

Lemma length_digits_tight b z (k : nat) :
  2 ≤ b → 0 ≤ z < b ^ Z.of_nat k → (0 < k)%nat →
  (String.length (digits b z) ≤ k)%nat.
Proof.
  intros Hb Hz Hk. unfold digits.
  etrans; [by apply (length_digits_go_tight b _ z "" k)|]. simpl. lia.
Qed.

(** ** The hex dump *)

Lemma append_empty_r (s : string) : s +:+ "" = s.
Proof.
  induction s as [|c s IH]; [done|].
  change (String c (s +:+ "") = String c s). by rewrite IH.
Qed.

Lemma string_concat_cons (x : string) (xs : list string) :
  String.concat "" (x :: xs) = x +:+ String.concat "" xs.
Proof.
  destruct xs; cbn [String.concat]; [by rewrite append_empty_r|done].
Qed.

Lemma length_string_concat_cons (x : string) (xs : list string) :
  String.length (String.concat "" (x :: xs))
  = (String.length x + String.length (String.concat "" xs))%nat.
Proof. by rewrite string_concat_cons, length_append. Qed.

Lemma length_string_concat_app (l1 l2 : list string) :
  String.length (String.concat "" (l1 ++ l2))
  = (String.length (String.concat "" l1)
     + String.length (String.concat "" l2))%nat.
Proof.
  induction l1 as [|x l1 IH]; [done|].
  rewrite <- app_comm_cons, !length_string_concat_cons, IH. lia.
Qed.

Lemma length_string_concat_same {A : Type} (f : A → string) (n : nat)
    (l : list A) :
  Forall (λ x, String.length (f x) = n) l →
  String.length (String.concat "" (f <$> l)) = (length l * n)%nat.
Proof.
  induction 1 as [|x l Hx Hl IH]; [done|].
  rewrite fmap_cons, length_string_concat_cons, IH, Hx. simpl. lia.
Qed.

Lemma filter_all {A : Type} (P : A → Prop) `{!∀ x, Decision (P x)}
    (l : list A) :
  Forall P l → filter P l = l.
Proof.
  induction 1 as [|x l Hx Hl IH]; [done|].
  by rewrite filter_cons_True, IH.
Qed.

Lemma byte_lookup (mem : list Z) (n : nat) :
  Forall (λ b : Z, 0 ≤ b < 256) mem → 0 ≤ mem !!! n < 256.
Proof.
  intros H. rewrite list_lookup_total_alt.
  destruct (mem !! n) as [b|] eqn:Hb; [|simpl; lia].
  exact (proj1 (Forall_lookup _ _) H n b Hb).
Qed.

Lemma print_fits E text :
  (String.length text < 512)%nat → print E text = text.
Proof.
  intros H. unfold print. apply written_fits.
  pose proof buffer_size_ge. lia.
Qed.

Lemma dump_cell_length E (b : Z) :
  0 ≤ b < 256 →
  String.length (print E (pad_left "0" 2 (fmt_x b) +:+ " ")) = 3%nat.
Proof.
  intros Hb.
  pose proof (length_digits_tight 16 b 2 ltac:(lia) ltac:(simpl; lia)
                ltac:(lia)) as Hd.
  assert (String.length (pad_left "0" 2 (fmt_x b) +:+ " ") = 3%nat) as Hl.
  { rewrite length_append, length_pad_left. unfold fmt_x.
    change (String.length " ") with 1%nat. lia. }
  rewrite print_fits by lia. exact Hl.
Qed.

Lemma dump_offset_length E (i : nat) :
  (i < 256)%nat →
  String.length (print E (pad_left "0" 4 (fmt_x (Z.of_nat i)) +:+ ": "))
  = 6%nat.
Proof.
  intros Hi.
  pose proof (length_digits_tight 16 (Z.of_nat i) 2 ltac:(lia)
                ltac:(simpl; lia) ltac:(lia)) as Hd.
  assert (String.length (pad_left "0" 4 (fmt_x (Z.of_nat i)) +:+ ": ")
          = 6%nat) as Hl.
  { rewrite length_append, length_pad_left. unfold fmt_x.
    change (String.length ": ") with 2%nat. lia. }
  rewrite print_fits by lia. exact Hl.
Qed.

Lemma dump_row_layout E (mem : list Z) (k : nat) :
  Forall (λ b : Z, 0 ≤ b < 256) mem → (k < 16)%nat →
  length (dump_row E mem (16 * k)) = 18%nat ∧
  String.length (String.concat "" (dump_row E mem (16 * k))) = 55%nat.
Proof.
  intros Hmem Hk. unfold dump_row.
  rewrite (filter_all _ (seq 0 16))
    by (apply Forall_forall; intros j Hj; apply elem_of_seq in Hj;
        unfold MEMORY_DUMP_SIZE; lia).
  split.
  - cbn [length]. by rewrite length_app, length_fmap, length_seq.
  - rewrite length_string_concat_cons, length_string_concat_app.
    rewrite dump_offset_length by lia.
    rewrite (length_string_concat_same _ 3)
      by (apply Forall_forall; intros j _; apply dump_cell_length,
          byte_lookup, Hmem).
    by rewrite length_seq.
Qed.

Lemma dump_rows_layout E (mem : list Z) (ks : list nat) :
  Forall (λ b : Z, 0 ≤ b < 256) mem → Forall (λ k : nat, (k < 16)%nat) ks →
  length (concat ((λ k : nat, dump_row E mem (16 * k)) <$> ks))
  = (18 * length ks)%nat ∧
  String.length
    (String.concat "" (concat ((λ k : nat, dump_row E mem (16 * k)) <$> ks)))
  = (55 * length ks)%nat.
Proof.
  intros Hmem. induction 1 as [|k ks Hk Hks IH]; [done|].
  rewrite fmap_cons. cbn [concat].
  destruct (dump_row_layout E mem k Hmem Hk) as [Hn Hl].
  destruct IH as [IHn IHl].
  rewrite length_app, length_string_concat_app, Hn, Hl, IHn, IHl.
  cbn [length]. lia.
Qed.

(** X12.  The hex dump has a fixed layout.  For a window buffer of byte
    values, every one of the 16 rows is made of 18 writes (the offset, 16
    byte cells, the line end) and is 55 characters long: a four-digit
    offset with [: ], then sixteen cells of two hex digits and a blank.
    The whole dump of a window is 288 writes and 880 characters. *)
Theorem X12_hex_dump_layout (E : environment) (mem : list Z) :
  Forall (λ b : Z, 0 ≤ b < 256) mem →
  length (dump_rows E mem) = 288%nat ∧
  String.length (String.concat "" (dump_rows E mem)) = 880%nat ∧
  ∀ k : nat, (k < 16)%nat →
    length (dump_row E mem (16 * k)) = 18%nat ∧
    String.length (String.concat "" (dump_row E mem (16 * k))) = 55%nat.
Proof.
  intros Hmem.
  assert (Forall (λ k : nat, (k < 16)%nat) (seq 0 16)) as Hks
    by (apply Forall_forall; intros k Hk; apply elem_of_seq in Hk; lia).
  destruct (dump_rows_layout E mem (seq 0 16) Hmem Hks) as [Hn Hl].
  rewrite length_seq in Hn, Hl.
  split; [exact Hn|]. split; [exact Hl|].
  intros k Hk. by apply dump_row_layout.
Qed.

(** ** The report header *)

Lemma event_fields_capture_registers info context :
  event_fields (capture_registers info context) = event_fields info.
Proof. by destruct (capture_registers_sets info context) as [r ->]. Qed.

Lemma event_fields_capture_memory_dump E info :
  event_fields (fst (capture_memory_dump E info)) = event_fields info.
Proof.
  unfold capture_memory_dump.
  destruct (fault_address (set_memory_readable false info) =? 0); [done|].
  repeat match goal with
         | |- context [copy_loop ?e ?b ?i ?n ?buf] =>
             destruct (copy_loop e b i n buf) as [? [?|]]
         end; done.
Qed.

Lemma event_fields_captured E sig info context :
  event_fields (fst (captured E sig info context))
  = (sig, si_code info, si_addr info, get_signal_name sig,
     get_thread_name E 128, env_pid E, env_tid E, env_time E).
Proof.
  assert (event_fields (collect E sig info)
          = (sig, si_code info, si_addr info, get_signal_name sig,
             get_thread_name E 128, env_pid E, env_tid E, env_time E)) as Hc.
  { unfold event_fields, collect.
    cbn [signal code fault_address signal_name thread_name pid tid crash_time].
    unfold strncpy. rewrite substring_all; [done|].
    pose proof (get_signal_name_length sig). lia. }
  unfold captured. destruct build eqn:Hb; rewrite <- ?Hb; [exact Hc|].
  by rewrite event_fields_capture_memory_dump,
    event_fields_capture_registers.
Qed.

Lemma length_fmt_d_int z :
  - 2 ^ 31 ≤ z < 2 ^ 31 → (String.length (fmt_d z) ≤ 11)%nat.
Proof.
  intros Hz. unfold fmt_d, fmt_u.
  destruct (z <? 0) eqn:Hneg.
  - apply Z.ltb_lt in Hneg. rewrite length_append.
    change (String.length "-") with 1%nat.
    pose proof (length_digits_tight 10 (- z) 10 ltac:(lia) ltac:(simpl; lia)
                  ltac:(lia)). lia.
  - apply Z.ltb_ge in Hneg.
    pose proof (length_digits_tight 10 z 10 ltac:(lia) ltac:(simpl; lia)
                  ltac:(lia)). lia.
Qed.

Lemma length_fmt_d_long z :
  - 2 ^ 63 ≤ z < 2 ^ 63 → (String.length (fmt_d z) ≤ 20)%nat.
Proof.
  intros Hz. unfold fmt_d, fmt_u.
  destruct (z <? 0) eqn:Hneg.
  - apply Z.ltb_lt in Hneg. rewrite length_append.
    change (String.length "-") with 1%nat.
    pose proof (length_digits_tight 10 (- z) 19 ltac:(lia) ltac:(simpl; lia)
                  ltac:(lia)). lia.
  - apply Z.ltb_ge in Hneg.
    pose proof (length_digits_tight 10 z 19 ltac:(lia) ltac:(simpl; lia)
                  ltac:(lia)). lia.
Qed.

Lemma length_fmt_p z :
  0 ≤ z < 2 ^ ptr_bits target → (String.length (fmt_p z) ≤ 18)%nat.
Proof.
  intros Hz. pose proof ptr_bits_le. unfold fmt_p, fmt_x.
  rewrite length_append. change (String.length "0x") with 2%nat.
  pose proof (length_digits_tight 16 z 16 ltac:(lia) ltac:(simpl; lia)
                ltac:(lia)). lia.
Qed.

Lemma length_fmt_zu_frames (n : nat) :
  (n ≤ 128)%nat → (String.length (fmt_zu n) ≤ 3)%nat.
Proof.
  intros Hn. unfold fmt_zu, fmt_u.
  apply length_digits_tight; [lia|simpl; lia|lia].
Qed.

Lemma length_get_thread_name E :
  (∀ name, env_getname E = Some name → (String.length name ≤ 127)%nat) →
  (String.length (get_thread_name E 128) ≤ 127)%nat.
Proof.
  intros Hname. unfold get_thread_name, snprintf. cbn [fst].
  destruct (26 <=? ANDROID_API); [destruct (env_getname E) as [name|] eqn:Hn|];
    [by apply Hname|apply length_substring_le|apply length_substring_le].
Qed.

Lemma header_text_fits (info : CrashInfo) :
  (String.length (signal_name info) ≤ 7)%nat →
  - 2 ^ 31 ≤ signal info < 2 ^ 31 →
  - 2 ^ 31 ≤ code info < 2 ^ 31 →
  0 ≤ fault_address info < 2 ^ ptr_bits target →
  (String.length (thread_name info) ≤ 127)%nat →
  - 2 ^ 31 ≤ pid info < 2 ^ 31 →
  - 2 ^ 31 ≤ tid info < 2 ^ 31 →
  - 2 ^ 63 ≤ crash_time info < 2 ^ 63 →
  (frame_count info ≤ 128)%nat →
  (String.length (header_text info) < 512)%nat.
Proof.
  intros Hn Hs Hc Ha Ht Hp Hti Htm Hf.
  unfold header_text. rewrite !length_append.
  pose proof (length_fmt_d_int _ Hs). pose proof (length_fmt_d_int _ Hc).
  pose proof (length_fmt_d_int _ Hp). pose proof (length_fmt_d_int _ Hti).
  pose proof (length_fmt_d_long _ Htm). pose proof (length_fmt_p _ Ha).
  pose proof (length_fmt_zu_frames _ Hf).
  pose proof (get_signal_description_length (signal info)).
  assert (String.length (match build with Basic => "" | Enhanced => nl end)
          ≤ 1)%nat by (destruct build; simpl; lia).
  change (String.length "NATIVE_CRASH") with 12%nat.
  change (String.length nl) with 1%nat.
  change (String.length "Signal: ") with 8%nat.
  change (String.length " (") with 2%nat.
  change (String.length ")") with 1%nat.
  change (String.length "Description: ") with 13%nat.
  change (String.length "Code: ") with 6%nat.
  change (String.length "Fault Address: ") with 15%nat.
  change (String.length "Thread: ") with 8%nat.
  change (String.length "PID: ") with 5%nat.
  change (String.length "TID: ") with 5%nat.
  change (String.length "Time: ") with 6%nat.
  change (String.length "Frame Count: ") with 13%nat.
  lia.
Qed.

Lemma report_text_header E info :
  report_text E info
  = print E (header_text info)
    +:+ String.concat "" (tail (report_chunks E info)).
Proof.
  unfold report_text, report_chunks.
  destruct build; rewrite <- app_comm_cons; by rewrite string_concat_cons.
Qed.

(** X13.  The report starts with the whole header.  For a first entry that
    writes its report, with the signal data in the ranges of their C types
    and a thread name that fits the 128-byte member, the file begins with
    the header text of the crash structure, never cut by the format buffer;
    and the header's members are the delivered signal number, code and
    fault address, the table name of the signal, the thread name, the
    process and thread ids, the time, and as frame count the number of
    nonzero program counters on the stack, capped at [MAX_STACK_FRAMES]. *)
Theorem X13_report_header (E : environment) (sig : Z) (info : siginfo_t)
    (context : option ucontext_t) (p : process) :
  handling_crash p = false →
  snd (captured E sig info context) = None →
  env_open E (g_crash_file_path p) = true →
  - 2 ^ 31 ≤ sig < 2 ^ 31 →
  - 2 ^ 31 ≤ si_code info < 2 ^ 31 →
  0 ≤ si_addr info < 2 ^ ptr_bits target →
  - 2 ^ 31 ≤ env_pid E < 2 ^ 31 →
  - 2 ^ 31 ≤ env_tid E < 2 ^ 31 →
  - 2 ^ 63 ≤ env_time E < 2 ^ 63 →
  (∀ name, env_getname E = Some name → (String.length name ≤ 127)%nat) →
  let p' := signal_handler E sig info context p in
  let ci := g_crash_info p' in
  (∃ rest,
     files p' !! g_crash_file_path p = Some (header_text ci +:+ rest)) ∧
  event_fields ci
  = (sig, si_code info, si_addr info, get_signal_name sig,
     get_thread_name E 128, env_pid E, env_tid E, env_time E) ∧
  frame_count ci
  = Nat.min (length (kept (env_backtrace E))) (MAX_STACK_FRAMES build).
Proof.
  intros Hflag Hcap Hopen Hsig Hcode Haddr Hpid Htid Htime Hname p' ci.
  subst ci p'.
  rewrite signal_handler_first by done.
  pose proof (event_fields_captured E sig info context) as Hev.
  pose proof (captured_keeps E sig info context) as (_ & Hframes & _).
  destruct (captured E sig info context) as [ci fault].
  cbn [fst snd] in Hcap, Hev, Hframes. subst fault.
  pose proof (report_written E sig ci (set_handling_crash true p)) as H.
  change (g_crash_file_path (set_handling_crash true p))
    with (g_crash_file_path p) in H.
  specialize (H Hopen). cbv zeta in H. destruct H as (Hci & Hf & _).
  rewrite Hci, Hf.
  assert (event_fields (unwound E ci) = event_fields ci) as Hu by done.
  rewrite Hu, Hev.
  pose proof (capture_stack_trace_spec E (stack_frames ci)
                (MAX_STACK_FRAMES build)) as Hst.
  rewrite Hframes, length_replicate in Hst. specialize (Hst ltac:(lia)).
  rewrite <- Hframes in Hst. cbv zeta in Hst. destruct Hst as (_ & Hn & _).
  assert (frame_count (unwound E ci)
          = Nat.min (length (kept (env_backtrace E)))
              (MAX_STACK_FRAMES build)) as Hfc by exact Hn.
  split; [|split; [reflexivity|exact Hfc]].
  exists (String.concat "" (tail (report_chunks E (unwound E ci)))).
  rewrite lookup_insert_eq. f_equal.
  rewrite report_text_header. f_equal.
  apply print_fits.
  unfold event_fields in Hu, Hev. rewrite <- Hu in Hev.
  injection Hev as Hs1 Hs2 Hs3 Hs4 Hs5 Hs6 Hs7 Hs8.
  assert (MAX_STACK_FRAMES build ≤ 128)%nat
    by (unfold MAX_STACK_FRAMES; destruct build; lia).
  apply header_text_fits.
  - change (signal_name (unwound E ci)) with (signal_name ci).
    rewrite Hs4. apply get_signal_name_length.
  - change (signal (unwound E ci)) with (signal ci). by rewrite Hs1.
  - change (code (unwound E ci)) with (code ci). by rewrite Hs2.
  - change (fault_address (unwound E ci)) with (fault_address ci).
    by rewrite Hs3.
  - change (thread_name (unwound E ci)) with (thread_name ci).
    rewrite Hs5. by apply length_get_thread_name.
  - change (pid (unwound E ci)) with (pid ci). by rewrite Hs6.
  - change (tid (unwound E ci)) with (tid ci). by rewrite Hs7.
  - change (crash_time (unwound E ci)) with (crash_time ci). by rewrite Hs8.
  - rewrite Hfc. lia.
Qed.

(** ** A frame line longer than the format buffer *)

(** X14.  The length passed to [write] is the length [snprintf] returns,
    not the number of bytes in the buffer.  So for a resolved frame whose
    module path alone is as long as the format buffer, the line is longer
    than the buffer and [write] still carries as many bytes as the whole
    line has: the first [sizeof(buffer) - 1] characters of the line, the
    terminating NUL, and then the bytes of memory behind the buffer, exactly
    as many of them as the line is longer than the buffer. *)
Theorem X14_long_frame_line_overruns (E : environment) (info : CrashInfo)
    (i : nat) (dl : Dl_info) (fname : string) :
  env_dladdr E (stack_frames info !!! i) = Some dl →
  dli_fname dl = Some fname →
  (BUFFER_SIZE build ≤ String.length fname)%nat →
  let line := resolved_line i (stack_frames info !!! i) dl in
  let over := (String.length line - BUFFER_SIZE build)%nat in
  (String.length line = BUFFER_SIZE build + over)%nat ∧
  frame_line E info i
  = String.substring 0 (BUFFER_SIZE build - 1) line
    +:+ String NUL (bytes_after (env_stale E) 0 over) ∧
  String.length (String.substring 0 (BUFFER_SIZE build - 1) line)
  = (BUFFER_SIZE build - 1)%nat ∧
  String.length (bytes_after (env_stale E) 0 over) = over ∧
  String.length (frame_line E info i) = String.length line.
Proof.
  intros Hdl Hname Hlong line over.
  pose proof buffer_size_ge as Hsize.
  assert (BUFFER_SIZE build ≤ String.length line)%nat as Hline.
  { unfold line, resolved_line. rewrite Hname.
    change (default "???" (Some fname)) with fname.
    rewrite !length_append. lia. }
  assert (frame_line E info i = print E line) as Hprint
    by (unfold frame_line; by rewrite Hdl).
  split; [unfold over; lia|]. split; [|split; [|split]].
  - rewrite Hprint. unfold print, written, snprintf.
    by rewrite (proj2 (Nat.ltb_ge _ _) Hline).
  - rewrite length_substring_min. lia.
  - apply length_bytes_after.
  - rewrite Hprint. unfold print. apply length_written. lia.
Qed.

(** ** The thread-name placeholder *)

Lemma digit_value_char (d : Z) :
  0 ≤ d < 16 → digit_value (digit_char d) = d.
Proof.
  intros Hd.
  assert (d = 0 ∨ d = 1 ∨ d = 2 ∨ d = 3 ∨ d = 4 ∨ d = 5 ∨ d = 6 ∨ d = 7 ∨
          d = 8 ∨ d = 9 ∨ d = 10 ∨ d = 11 ∨ d = 12 ∨ d = 13 ∨ d = 14 ∨
          d = 15) as H by lia.
  repeat (destruct H as [->|H]; [reflexivity|]). by subst.
Qed.

Lemma digits_value_go b fuel z acc :
  2 ≤ b ≤ 16 → 0 ≤ z < b ^ Z.of_nat fuel →
  digits_value b (digits_go b fuel z acc)
  = z * b ^ Z.of_nat (String.length acc) + digits_value b acc.
Proof.
  intros Hb. revert z acc.
  induction fuel as [|fuel IH]; intros z acc Hz; cbn [digits_go].
  - change (b ^ Z.of_nat 0) with 1 in Hz. replace z with 0 by lia. lia.
  - assert (0 ≤ z mod b < b) as Hmod by (apply Z.mod_pos_bound; lia).
    assert (z = b * (z / b) + z mod b) as Hdiv by (apply Z.div_mod; lia).
    destruct (z / b =? 0) eqn:Hq.
    + apply Z.eqb_eq in Hq. cbn [digits_value].
      rewrite digit_value_char by lia. rewrite Hq in Hdiv. nia.
    + rewrite IH.
      * cbn [digits_value String.length].
        rewrite digit_value_char by lia.
        rewrite Nat2Z.inj_succ, Z.pow_succ_r by lia.
        set (q := z / b) in *. set (r := z mod b) in *.
        set (w := b ^ Z.of_nat (String.length acc)).
        assert (z * w = (b * q + r) * w) as -> by (f_equal; exact Hdiv).
        ring.
      * split; [apply Z.div_pos; lia|].
        apply Z.div_lt_upper_bound; [lia|].
        rewrite <- Z.pow_succ_r by lia.
        replace (Z.succ (Z.of_nat fuel)) with (Z.of_nat (S fuel)) by lia.
        lia.
Qed.

(** Reading back the digits [digits] prints gives the number. *)
Lemma digits_value_digits b z :
  2 ≤ b ≤ 16 → 0 ≤ z → digits_value b (digits b z) = z.
Proof.
  intros Hb Hz. unfold digits.
  rewrite digits_value_go; [cbn; lia|done|].
  split; [done|].
  destruct (decide (z = 0)) as [->|Hnz].
  { apply Z.pow_pos_nonneg; lia. }
  pose proof (Z.log2_nonneg z) as Hl.
  destruct (Z.log2_spec z ltac:(lia)) as [_ Hlt].
  replace (Z.of_nat (S (Z.to_nat (Z.log2 z)))) with (Z.succ (Z.log2 z))
    by lia.
  eapply Z.lt_le_trans; [exact Hlt|].
  apply Z.pow_le_mono_l. lia.
Qed.

Lemma digits_head b z :
  2 ≤ b → ∃ d rest, 0 ≤ d < b ∧ digits b z = String (digit_char d) rest.
Proof.
  intros Hb. unfold digits.
  generalize (Z.to_nat (Z.log2 z)). intros fuel.
  assert (∀ f y acc,
            (∃ d rest, 0 ≤ d < b ∧ acc = String (digit_char d) rest) →
            ∃ d rest, 0 ≤ d < b ∧
              digits_go b f y acc = String (digit_char d) rest) as Hgo.
  { induction f as [|f IH]; intros y acc Hacc; cbn [digits_go]; [done|].
    assert (0 ≤ y mod b < b) by (apply Z.mod_pos_bound; lia).
    destruct (y / b =? 0); [by eexists _, _|].
    apply IH. by eexists _, _. }
  cbn [digits_go].
  assert (0 ≤ z mod b < b) by (apply Z.mod_pos_bound; lia).
  destruct (z / b =? 0); [by eexists _, _|].
  apply Hgo. by eexists _, _.
Qed.

Lemma digit_char_not_minus (d : Z) :
  0 ≤ d < 10 → digit_char d ≠ "-"%char.
Proof.
  intros Hd.
  assert (d = 0 ∨ d = 1 ∨ d = 2 ∨ d = 3 ∨ d = 4 ∨ d = 5 ∨ d = 6 ∨ d = 7 ∨
          d = 8 ∨ d = 9) as H by lia.
  repeat (destruct H as [->|H]; [discriminate|]). by subst.
Qed.

Lemma fmt_d_inj (a b : Z) : fmt_d a = fmt_d b → a = b.
Proof.
  unfold fmt_d, fmt_u.
  destruct (Z.ltb_spec a 0) as [Ha|Ha]; destruct (Z.ltb_spec b 0) as [Hb|Hb].
  - intros H.
    change (String "-" (digits 10 (- a)) = String "-" (digits 10 (- b))) in H.
    assert (digits 10 (- a) = digits 10 (- b)) as H' by congruence.
    apply (f_equal (digits_value 10)) in H'.
    rewrite !digits_value_digits in H' by lia. lia.
  - intros H. destruct (digits_head 10 b ltac:(lia)) as (d & rest & Hd & Hr).
    rewrite Hr in H.
    change (String "-" (digits 10 (- a)) = String (digit_char d) rest) in H.
    exfalso. apply (digit_char_not_minus d Hd). congruence.
  - intros H. destruct (digits_head 10 a ltac:(lia)) as (d & rest & Hd & Hr).
    rewrite Hr in H.
    change (String (digit_char d) rest = String "-" (digits 10 (- b))) in H.
    exfalso. apply (digit_char_not_minus d Hd). congruence.
  - intros H. apply (f_equal (digits_value 10)) in H.
    by rewrite !digits_value_digits in H by lia.
Qed.

(** X15.  The thread-name placeholder tells threads apart.  When the name
    lookup is unavailable or fails in two runs, with thread ids that are
    [int]s, different thread ids give different placeholders. *)
Theorem X15_placeholder_identifies_thread (E E' : environment) :
  ANDROID_API < 26 ∨ (env_getname E = None ∧ env_getname E' = None) →
  - 2 ^ 31 ≤ env_tid E < 2 ^ 31 →
  - 2 ^ 31 ≤ env_tid E' < 2 ^ 31 →
  env_tid E ≠ env_tid E' →
  get_thread_name E 128 ≠ get_thread_name E' 128.
Proof.
  intros Hfail Ht Ht' Hne.
  rewrite !get_thread_name_fallback by tauto.
  intros H. apply Hne, fmt_d_inj.
  change (String "T" (String "h" (String "r" (String "e" (String "a"
            (String "d" (String "-" (fmt_d (env_tid E))))))))
          = String "T" (String "h" (String "r" (String "e" (String "a"
              (String "d" (String "-" (fmt_d (env_tid E'))))))))) in H.
  congruence.
Qed.

(** ** Other files *)

Lemma signal_handler_other_files E sig info context p (path' : string) :
  path' ≠ g_crash_file_path p →
  files (signal_handler E sig info context p) !! path' = files p !! path'.
Proof.
  intros Hne.
  destruct (handling_crash p) eqn:H.
  - by rewrite signal_handler_reentry.
  - rewrite signal_handler_first by done.
    destruct (captured E sig info context) as [ci [a|]]; [done|].
    pose proof (report_and_chain_frame E sig ci (set_handling_crash true p))
      as (_ & _ & Hf).
    cbv zeta in Hf. rewrite Hf.
    change (g_crash_file_path (set_handling_crash true p))
      with (g_crash_file_path p).
    change (files (set_handling_crash true p)) with (files p).
    destruct (env_open E (g_crash_file_path p)); [|done].
    by rewrite lookup_insert_ne.
Qed.

(** X16.  The handler writes no file but the report: over every sequence
    of handler entries, whatever the environment answers, every path other
    than the stored report path holds after the run what it held before. *)
Theorem X16_other_files_untouched (fs : list fault) (p : process)
    (path' : string) :
  path' ≠ g_crash_file_path p →
  files (handle_all fs p) !! path' = files p !! path'.
Proof.
  unfold handle_all. revert p.
  induction fs as [|f fs IH]; intros p Hne; [done|].
  cbn [foldl].
  pose proof (signal_handler_keeps (f_env f) (f_sig f) (f_info f)
                (f_context f) p) as (Hpath & _).
  fold (handle p f) in Hpath.
  rewrite IH by (by rewrite Hpath).
  unfold handle. by apply signal_handler_other_files.
Qed.

End Handler.

(** * Sample runs *)

(** An entry that finds the flag set, on a sample process. *)
Lemma C1_single_report_witness :
  let p := set_handling_crash true (process_start Basic aarch64 ∅ ∅) in
  let f := Fault sample_env SIGSEGV (SigInfo 1 0) None in
  handling_crash p = true ∧
  status (handle Basic aarch64 30 p f) = Exited 1 ∧
  files (handle Basic aarch64 30 p f) = ∅.
Proof.
  intros p f. split; [reflexivity|].
  destruct (C1_single_report Basic aarch64 30 [] f p) as (_ & _ & _ & _ & H).
  destruct (H eq_refl) as (_ & Hs & _ & Hf & _).
  split; [exact Hs|exact Hf].
Defined.

(** The walk over the sample stack with the basic handler's array. *)
Lemma C5_unwind_bounded_witness :
  (64 ≤ length (replicate 64 0%Z))%nat ∧
  (snd (capture_stack_trace sample_env (replicate 64 0%Z) 64) ≤ 64)%nat ∧
  take (snd (capture_stack_trace sample_env (replicate 64 0) 64))
    (fst (capture_stack_trace sample_env (replicate 64 0) 64))
  = take 64 (kept (env_backtrace sample_env)).
Proof.
  assert (64 ≤ length (replicate 64 0%Z))%nat as H
    by (rewrite length_replicate; lia).
  split; [exact H|].
  destruct (C5_unwind_bounded sample_env (replicate 64 0) 64 H)
    as (Hn & _ & Ht & _).
  split; [exact Hn|exact Ht].
Defined.

(** The walk over the sample stack with the enhanced handler's array. *)
Lemma C10_frames_nonzero_witness :
  (128 ≤ length (replicate 128 0%Z))%nat ∧
  Forall (λ a : Z, a ≠ 0)
    (take (snd (capture_stack_trace sample_env (replicate 128 0) 128))
       (fst (capture_stack_trace sample_env (replicate 128 0) 128))).
Proof.
  assert (128 ≤ length (replicate 128 0%Z))%nat as H
    by (rewrite length_replicate; lia).
  split; [exact H|].
  exact (proj1 (C10_frames_nonzero sample_env (replicate 128 0) 128 H)).
Defined.

(** A segmentation fault at a readable address, enhanced handler. *)
Lemma C6_reraise_default_witness :
  let p := initialize Enhanced 4096 "/data/crash"
             (process_start Enhanced aarch64 ∅ ∅) in
  handling_crash p = false ∧
  snd (captured Enhanced aarch64 30 sample_env SIGSEGV (SigInfo 1 2048) None)
  = None ∧
  (∀ fn, env_call sample_env fn = Returns) ∧
  SIGSEGV ∈ handled_signals ∧
  status (signal_handler Enhanced aarch64 30 sample_env SIGSEGV
            (SigInfo 1 2048) None p)
  = Killed SIGSEGV.
Proof.
  intros p.
  assert (handling_crash p = false) as H1 by reflexivity.
  assert (snd (captured Enhanced aarch64 30 sample_env SIGSEGV
                 (SigInfo 1 2048) None) = None) as H2
    by (vm_compute; reflexivity).
  assert (∀ fn, env_call sample_env fn = Returns) as H3
    by (intros fn; reflexivity).
  assert (SIGSEGV ∈ handled_signals) as H4 by (apply elem_of_cons; left; reflexivity).
  repeat (split; [assumption|]).
  exact (proj1 (proj2 (proj2
    (C6_reraise_default Enhanced aarch64 30 sample_env SIGSEGV
       (SigInfo 1 2048) None p H1 H2 H3 H4)))).
Defined.


(** A basic-handler run with a failed thread-name lookup. *)
Lemma placeholders_complete_report_sample :
  let p := initialize Basic 4096 "/data/crash"
             (process_start Basic aarch64 ∅ ∅) in
  let p' := signal_handler Basic aarch64 30 sample_env SIGSEGV
              (SigInfo 1 0) None p in
  handling_crash p = false ∧
  snd (captured Basic aarch64 30 sample_env SIGSEGV (SigInfo 1 0) None)
  = None ∧
  env_open sample_env (g_crash_file_path p) = true ∧
  - 2 ^ 31 ≤ env_tid sample_env < 2 ^ 31 ∧
  Forall (λ a : Z, 0 ≤ a < 2 ^ ptr_bits aarch64) (env_backtrace sample_env) ∧
  (30 < 26 ∨ env_getname sample_env = None) ∧
  thread_name (g_crash_info p') = "Thread-" +:+ fmt_d 4033 ∧
  files p' !! g_crash_file_path p
  = Some (report_text Basic aarch64 sample_env (g_crash_info p')).
Proof.
  intros p p'.
  assert (handling_crash p = false) as H1 by reflexivity.
  assert (snd (captured Basic aarch64 30 sample_env SIGSEGV (SigInfo 1 0) None)
          = None) as H2 by reflexivity.
  assert (env_open sample_env (g_crash_file_path p) = true) as H3
    by reflexivity.
  assert (- 2 ^ 31 ≤ env_tid sample_env < 2 ^ 31) as H4 by (simpl; lia).
  assert (Forall (λ a : Z, 0 ≤ a < 2 ^ ptr_bits aarch64)
            (env_backtrace sample_env)) as H5
    by (repeat constructor; simpl; lia).
  assert (30 < 26 ∨ env_getname sample_env = None) as H6
    by (right; reflexivity).
  repeat (split; [assumption|]).
  destruct (placeholders_complete_report Basic aarch64 30 sample_env SIGSEGV (SigInfo 1 0)
              None p H1 H2 H3 H4 H5) as (Hname & _ & Hfile & _).
  split; [exact (Hname H6)|exact Hfile].
Defined.

(** An abort in a process whose report file cannot be created. *)
Lemma C9_open_failure_witness :
  let p := initialize Basic 4096 "/data/crash"
             (process_start Basic aarch64 ∅ {[ "/data/crash/native_crash.txt" := "stale" ]}) in
  let p' := signal_handler Basic aarch64 30 sample_env_no_file SIGABRT
              (SigInfo (-6) 0) None p in
  handling_crash p = false ∧
  snd (captured Basic aarch64 30 sample_env_no_file SIGABRT (SigInfo (-6) 0)
         None) = None ∧
  env_open sample_env_no_file (g_crash_file_path p) = false ∧
  (∀ fn, env_call sample_env_no_file fn = Returns) ∧
  files p' = files p ∧
  trace p'
  = trace p ++ [EvOpen "/data/crash/native_crash.txt" false;
                EvSignal SIGABRT SIG_DFL; EvRaise SIGABRT].
Proof.
  intros p p'.
  assert (handling_crash p = false) as H1 by reflexivity.
  assert (snd (captured Basic aarch64 30 sample_env_no_file SIGABRT
                 (SigInfo (-6) 0) None) = None) as H2 by reflexivity.
  assert (env_open sample_env_no_file (g_crash_file_path p) = false) as H3
    by reflexivity.
  assert (∀ fn, env_call sample_env_no_file fn = Returns) as H4
    by (intros fn; reflexivity).
  repeat (split; [assumption|]).
  destruct (C9_open_failure Basic aarch64 30 sample_env_no_file SIGABRT
              (SigInfo (-6) 0) None p H1 H2 H3 H4) as (Hf & Ht).
  split; [exact Hf|exact Ht].
Defined.


(** C2 at a failing input.  The enhanced handler takes a fault at the
    address the crash trigger of type 3 writes to; the memory around it is
    not readable.  The first load of the memory window faults inside the
    handler: the handler run ends there, and no report is written. *)
Theorem C2_unmapped_window_faults :
  let p := initialize Enhanced 4096 "/data/crash"
             (process_start Enhanced aarch64 ∅ ∅) in
  let p' := signal_handler Enhanced aarch64 30 sample_env SIGSEGV
              (SigInfo 1 bad_ptr) None p in
  env_memory sample_env (bad_ptr - 256) = None ∧
  snd (captured Enhanced aarch64 30 sample_env SIGSEGV (SigInfo 1 bad_ptr) None)
  = Some (bad_ptr - 256) ∧
  status p' = Faulted (bad_ptr - 256) ∧
  files p' = ∅ ∧
  trace p' = trace p.
Proof.
  intros p p'.
  split; [|split; [|split; [|split]]]; vm_compute; reflexivity.
Qed.

(** C3 at a failing input.  A process that ignored [SIGTRAP] before
    [initialize] has the ignore sentinel saved for that signal; when the
    handler then runs for [SIGTRAP], its chain step calls through the saved
    word, the ignore sentinel itself. *)
Theorem C3_ignore_sentinel_is_called :
  let p := initialize Basic 4096 "/data/crash"
             (process_start Basic aarch64
                {[ SIGTRAP := sigaction_of SIG_IGN 0 [] ]} ∅) in
  let p' := signal_handler Basic aarch64 30 sample_env SIGTRAP (SigInfo 1 0)
              None p in
  sa_handler (g_old_handlers p !!! Z.to_nat SIGTRAP) = SIG_IGN ∧
  filter is_call (trace p') = [EvCallSigaction SIG_IGN SIGTRAP].
Proof. intros p p'. split; vm_compute; reflexivity. Qed.

(** C8 at a failing input.  In the enhanced handler a failure of the
    memory-window sub-step is not replaced by anything: at a fault address
    with unreadable memory around it the run ends inside the capture, after
    the thread-name placeholder was put in place and before any report is
    started.  No file is opened and the report path holds nothing. *)
Theorem C8_memory_failure_aborts_report :
  let p := initialize Enhanced 4096 "/data/crash"
             (process_start Enhanced aarch64 ∅ ∅) in
  let p' := signal_handler Enhanced aarch64 30 sample_env SIGSEGV
              (SigInfo 1 bad_ptr) None p in
  thread_name (g_crash_info p') = "Thread-" +:+ fmt_d 4033 ∧
  memory_readable (g_crash_info p') = false ∧
  reports (trace p') = 0%nat ∧
  files p' !! g_crash_file_path p = None.
Proof.
  intros p p'. split; [|split; [|split]]; vm_compute; reflexivity.
Qed.

(** * Sample runs for the further properties *)

(** Installing in a fresh process: [SIGBUS] gets the handler. *)
Lemma X2_initialize_installs_witness :
  g_initialized (process_start Basic aarch64 ∅ ∅) = false ∧
  disposition (initialize Basic 4096 "/data/crash"
                 (process_start Basic aarch64 ∅ ∅)) SIGBUS
  = installed_action 4096.
Proof.
  split; [reflexivity|].
  exact (X2_initialize_installs Basic 4096 "/data/crash"
           (process_start Basic aarch64 ∅ ∅) SIGBUS eq_refl).
Defined.

(** Installing over an earlier handler: its disposition is saved. *)
Lemma X3_initialize_saves_previous_witness :
  let p := sample_process_with_handler Basic in
  g_initialized p = false ∧
  length (g_old_handlers p) = 32%nat ∧
  g_old_handlers (initialize Basic 4096 "/data/crash" p) !!! Z.to_nat SIGSEGV
  = disposition p SIGSEGV.
Proof.
  intros p.
  assert (g_initialized p = false) as H1 by reflexivity.
  assert (length (g_old_handlers p) = 32%nat) as H2 by reflexivity.
  split; [exact H1|]. split; [exact H2|].
  destruct (X3_initialize_saves_previous Basic 4096 "/data/crash" p H1 H2)
    as (_ & H & _).
  apply H. apply elem_of_cons. left. reflexivity.
Defined.

(** A segmentation fault in a process that had its own handler. *)
Lemma X4_previous_handler_chained_witness :
  let p := sample_process_with_handler Basic in
  let p1 := initialize Basic 4096 "/data/crash" p in
  let p2 := signal_handler Basic aarch64 30 sample_env SIGSEGV (SigInfo 1 0)
              None p1 in
  g_initialized p = false ∧
  handling_crash p = false ∧
  length (g_old_handlers p) = 32%nat ∧
  SIGSEGV ∈ handled_signals ∧
  disposition p SIGSEGV = sigaction_of 8192 SA_SIGINFO [] ∧
  8192 ≠ 0 ∧
  snd (captured Basic aarch64 30 sample_env SIGSEGV (SigInfo 1 0) None)
  = None ∧
  (∀ fn, env_call sample_env fn = Returns) ∧
  trace p2
  = trace p1
    ++ report_events Basic aarch64 sample_env (g_crash_info p2)
         (g_crash_file_path p1)
    ++ [EvCallSigaction 8192 SIGSEGV; EvSignal SIGSEGV SIG_DFL;
        EvRaise SIGSEGV].
Proof.
  intros p p1 p2.
  assert (g_initialized p = false) as H1 by reflexivity.
  assert (handling_crash p = false) as H2 by reflexivity.
  assert (length (g_old_handlers p) = 32%nat) as H3 by reflexivity.
  assert (SIGSEGV ∈ handled_signals) as H4
    by (apply elem_of_cons; left; reflexivity).
  assert (disposition p SIGSEGV = sigaction_of 8192 SA_SIGINFO []) as H5
    by (vm_compute; reflexivity).
  assert (8192 ≠ 0) as H6 by lia.
  assert (snd (captured Basic aarch64 30 sample_env SIGSEGV (SigInfo 1 0)
                 None) = None) as H7 by reflexivity.
  assert (∀ fn, env_call sample_env fn = Returns) as H8
    by (intros fn; reflexivity).
  split; [exact H1|]. split; [exact H2|]. split; [exact H3|].
  split; [exact H4|]. split; [exact H5|]. split; [exact H6|].
  split; [exact H7|]. split; [exact H8|].
  exact (X4_previous_handler_chained Basic aarch64 30 4096 "/data/crash"
           sample_env SIGSEGV (SigInfo 1 0) None p 8192 SA_SIGINFO []
           H1 H2 H3 H4 H5 H6 H7 H8).
Defined.

(** The stored path for the 250-byte directory. *)
Lemma X5_report_path_bounded_witness :
  g_initialized (process_start Basic aarch64 ∅ ∅) = false ∧
  String.length
    (g_crash_file_path
       (initialize Basic 4096 long_directory
          (process_start Basic aarch64 ∅ ∅)))
  = Nat.min 255 (String.length long_directory + 17).
Proof.
  split; [reflexivity|].
  exact (proj1 (proj2 (proj2
    (X5_report_path_bounded Basic 4096 long_directory
       (process_start Basic aarch64 ∅ ∅) eq_refl)))).
Defined.

(** A bus error leaves the disposition of [SIGSEGV] alone. *)
Lemma X7_other_dispositions_kept_witness :
  let p := initialize Basic 4096 "/data/crash"
             (process_start Basic aarch64 ∅ ∅) in
  SIGSEGV ≠ SIGBUS ∧
  disposition (signal_handler Basic aarch64 30 sample_env SIGBUS
                 (SigInfo 1 0) None p) SIGSEGV
  = disposition p SIGSEGV.
Proof.
  intros p.
  assert (SIGSEGV ≠ SIGBUS) as H by (unfold SIGSEGV, SIGBUS; lia).
  split; [exact H|].
  exact (X7_other_dispositions_kept Basic aarch64 30 sample_env SIGBUS
           (SigInfo 1 0) None p SIGSEGV H).
Defined.

(** A null-pointer fault in the enhanced handler. *)
Lemma X9_null_fault_address_witness :
  let p := initialize Enhanced 4096 "/data/crash"
             (process_start Enhanced aarch64 ∅ ∅) in
  Enhanced = Enhanced ∧
  handling_crash p = false ∧
  si_addr (SigInfo 1 0) = 0 ∧
  memory_readable
    (g_crash_info (signal_handler Enhanced aarch64 30 sample_env SIGSEGV
                     (SigInfo 1 0) None p)) = false.
Proof.
  intros p.
  assert (handling_crash p = false) as H by reflexivity.
  split; [reflexivity|]. split; [exact H|]. split; [reflexivity|].
  exact (proj1 (proj2
    (X9_null_fault_address Enhanced aarch64 30 sample_env SIGSEGV
       (SigInfo 1 0) None p eq_refl H eq_refl))).
Defined.

(** An x86_64 build: the report ignores the machine context. *)
Lemma X10_x86_registers_not_reported_witness :
  let info := collect Enhanced x86_64 30 sample_env SIGSEGV (SigInfo 1 0) in
  let context := Some (UC_x86 (replicate 23 7)) in
  (Enhanced = Basic ∨ x86_64 = i386 ∨ x86_64 = x86_64) ∧
  report_chunks Enhanced x86_64 sample_env
    (capture_registers x86_64 info context)
  = report_chunks Enhanced x86_64 sample_env info.
Proof.
  intros info context.
  assert (Enhanced = Basic ∨ x86_64 = i386 ∨ x86_64 = x86_64) as H
    by (right; right; reflexivity).
  split; [exact H|].
  exact (proj1 (X10_x86_registers_not_reported Enhanced x86_64 sample_env
                  info context H)).
Defined.

(** A walk over the sample stack from an empty two-entry state. *)
Lemma X11_unwind_writes_in_bounds_witness :
  let st := MkUnwindState [0; 0; 99] 0 2 in
  let st' := fst (_Unwind_Backtrace unwind_callback
                    (env_backtrace sample_env) st) in
  (us_frame_count st ≤ max_frames st)%nat ∧
  (max_frames st ≤ length (frames st))%nat ∧
  length (frames st') = 3%nat ∧
  frames st' !! 2%nat = Some 99.
Proof.
  intros st st'.
  assert (us_frame_count st ≤ max_frames st)%nat as H1 by (simpl; lia).
  assert (max_frames st ≤ length (frames st))%nat as H2 by (simpl; lia).
  split; [exact H1|]. split; [exact H2|].
  destruct (X11_unwind_writes_in_bounds (env_backtrace sample_env) st H1 H2)
    as (Hl & _ & _ & Hsame).
  split; [exact Hl|].
  etrans; [apply Hsame; right; vm_compute; lia|reflexivity].
Defined.

(** The dump of a zeroed window. *)
Lemma X12_hex_dump_layout_witness :
  Forall (λ b : Z, 0 ≤ b < 256) (replicate 256 0) ∧
  String.length
    (String.concat "" (dump_rows Enhanced sample_env (replicate 256 0)))
  = 880%nat.
Proof.
  assert (Forall (λ b : Z, 0 ≤ b < 256) (replicate 256 0)) as H
    by (apply Forall_replicate; lia).
  split; [exact H|].
  exact (proj1 (proj2 (X12_hex_dump_layout Enhanced sample_env
                         (replicate 256 0) H))).
Defined.

(** The header of the sample report. *)
Lemma X13_report_header_witness :
  let p := initialize Basic 4096 "/data/crash"
             (process_start Basic aarch64 ∅ ∅) in
  let p' := signal_handler Basic aarch64 30 sample_env SIGSEGV (SigInfo 1 0)
              None p in
  handling_crash p = false ∧
  snd (captured Basic aarch64 30 sample_env SIGSEGV (SigInfo 1 0) None)
  = None ∧
  env_open sample_env (g_crash_file_path p) = true ∧
  - 2 ^ 31 ≤ SIGSEGV < 2 ^ 31 ∧
  - 2 ^ 31 ≤ si_code (SigInfo 1 0) < 2 ^ 31 ∧
  0 ≤ si_addr (SigInfo 1 0) < 2 ^ ptr_bits aarch64 ∧
  - 2 ^ 31 ≤ env_pid sample_env < 2 ^ 31 ∧
  - 2 ^ 31 ≤ env_tid sample_env < 2 ^ 31 ∧
  - 2 ^ 63 ≤ env_time sample_env < 2 ^ 63 ∧
  (∀ name, env_getname sample_env = Some name →
     (String.length name ≤ 127)%nat) ∧
  ∃ rest,
    files p' !! g_crash_file_path p
    = Some (header_text Basic (g_crash_info p') +:+ rest).
Proof.
  intros p p'.
  assert (handling_crash p = false) as H1 by reflexivity.
  assert (snd (captured Basic aarch64 30 sample_env SIGSEGV (SigInfo 1 0)
                 None) = None) as H2 by reflexivity.
  assert (env_open sample_env (g_crash_file_path p) = true) as H3
    by reflexivity.
  assert (- 2 ^ 31 ≤ SIGSEGV < 2 ^ 31) as H4 by (unfold SIGSEGV; lia).
  assert (- 2 ^ 31 ≤ si_code (SigInfo 1 0) < 2 ^ 31) as H5 by (simpl; lia).
  assert (0 ≤ si_addr (SigInfo 1 0) < 2 ^ ptr_bits aarch64) as H6
    by (simpl; lia).
  assert (- 2 ^ 31 ≤ env_pid sample_env < 2 ^ 31) as H7 by (simpl; lia).
  assert (- 2 ^ 31 ≤ env_tid sample_env < 2 ^ 31) as H8 by (simpl; lia).
  assert (- 2 ^ 63 ≤ env_time sample_env < 2 ^ 63) as H9 by (simpl; lia).
  assert (∀ name, env_getname sample_env = Some name →
            (String.length name ≤ 127)%nat) as H10
    by (intros name Hn; discriminate Hn).
  repeat (split; [assumption|]).
  exact (proj1 (X13_report_header Basic aarch64 30 sample_env SIGSEGV
                  (SigInfo 1 0) None p H1 H2 H3 H4 H5 H6 H7 H8 H9 H10)).
Defined.

(** A frame in a module with a 600-byte path, basic handler. *)
Lemma X14_long_frame_line_overruns_witness :
  let info := crash_info_zero Basic aarch64 in
  let dl := DlInfo (Some (repeat_char "m" 600)) None 0 in
  env_dladdr sample_env_long_module (stack_frames info !!! 0%nat) = Some dl ∧
  dli_fname dl = Some (repeat_char "m" 600) ∧
  (BUFFER_SIZE Basic ≤ String.length (repeat_char "m" 600))%nat ∧
  String.length (frame_line Basic aarch64 sample_env_long_module info 0)
  = String.length (resolved_line Basic aarch64 0
                     (stack_frames info !!! 0%nat) dl).
Proof.
  intros info dl.
  assert (env_dladdr sample_env_long_module (stack_frames info !!! 0%nat)
          = Some dl) as H1 by reflexivity.
  assert (dli_fname dl = Some (repeat_char "m" 600)) as H2 by reflexivity.
  assert (BUFFER_SIZE Basic ≤ String.length (repeat_char "m" 600))%nat as H3
    by (vm_compute; lia).
  repeat (split; [assumption|]).
  exact (proj2 (proj2 (proj2 (proj2
    (X14_long_frame_line_overruns Basic aarch64
       sample_env_long_module info 0 dl (repeat_char "m" 600)
       H1 H2 H3))))).
Defined.

(** Two threads whose names cannot be looked up. *)
Lemma X15_placeholder_identifies_thread_witness :
  (30 < 26 ∨ (env_getname sample_env = None ∧
              env_getname sample_env_other_thread = None)) ∧
  - 2 ^ 31 ≤ env_tid sample_env < 2 ^ 31 ∧
  - 2 ^ 31 ≤ env_tid sample_env_other_thread < 2 ^ 31 ∧
  env_tid sample_env ≠ env_tid sample_env_other_thread ∧
  get_thread_name 30 sample_env 128
  ≠ get_thread_name 30 sample_env_other_thread 128.
Proof.
  assert (30 < 26 ∨ (env_getname sample_env = None ∧
                     env_getname sample_env_other_thread = None)) as H1
    by (right; split; reflexivity).
  assert (- 2 ^ 31 ≤ env_tid sample_env < 2 ^ 31) as H2 by (simpl; lia).
  assert (- 2 ^ 31 ≤ env_tid sample_env_other_thread < 2 ^ 31) as H3
    by (simpl; lia).
  assert (env_tid sample_env ≠ env_tid sample_env_other_thread) as H4
    by (simpl; lia).
  repeat (split; [assumption|]).
  exact (X15_placeholder_identifies_thread 30 sample_env
           sample_env_other_thread H1 H2 H3 H4).
Defined.

(** Two faults in a process that holds another file. *)
Lemma X16_other_files_untouched_witness :
  let p := initialize Basic 4096 "/data/crash"
             (process_start Basic aarch64 ∅ {[ "/data/notes.txt" := "kept" ]}) in
  let f := Fault sample_env SIGSEGV (SigInfo 1 0) None in
  "/data/notes.txt" ≠ g_crash_file_path p ∧
  files (handle_all Basic aarch64 30 [f; f] p) !! "/data/notes.txt"
  = files p !! "/data/notes.txt".
Proof.
  intros p f.
  assert ("/data/notes.txt" ≠ g_crash_file_path p) as H
    by (vm_compute; discriminate).
  split; [exact H|].
  exact (X16_other_files_untouched Basic aarch64 30 [f; f] p
           "/data/notes.txt" H).
Defined.
